(** * doit command layer (doit/cmds.py): shallow embedding and properties

    The command functions [doit_run], [doit_list], [doit_forget],
    [doit_ignore], [doit_auto] and the class [FileModifyWatcher] are
    embedded as functions over explicit state.  Python dictionaries are
    [gmap]s, Python sets are [gset]s, the output stream is the list of the
    strings written to it, exceptions are an outcome of a small
    state-and-exception monad, and the two [while group:] work-list loops
    take a bound on their number of iterations. *)

From stdpp Require Import gmap strings list fin_maps relations.

(** ** Strings used by the messages *)

Definition nl : string := String (Ascii.ascii_of_nat 10) EmptyString.
Definition tab : string := String (Ascii.ascii_of_nat 9) EmptyString.

(** [s.startswith(p)] *)
Definition startswith (s p : string) : bool := String.prefix p s.

(** ** Tasks (doit.task.Task): the attributes the command layer reads *)

Inductive Action :=
| CmdAction (cmd : string)
| PythonAction (callable : string).

Record Task := {
  name : string;
  actions : list Action;
  file_dep : list string;
  task_dep : list string; (* iterated in this order by the loops *)
  doc : string;           (* the empty string stands for a falsy doc *)
  is_subtask : bool
}.

(** [not task.actions] *)
Definition no_actions (t : Task) : bool :=
  match actions t with [] => true | _ :: _ => false end.

(** [dict([(t.name, t) for t in task_list])]: a later task of the same name
    replaces an earlier one. *)
Definition tasks_dict (task_list : list Task) : gmap string Task :=
  fold_left (fun d t => <[name t := t]> d) task_list ∅.

(** ** Outcomes: normal return, a raised exception, or an exhausted budget

    [OutOfFuel] is the end of a run that used up the bound it was given.
    For the [while group:] loops the bound is a number of iterations, and
    using up every bound is how a loop that never stops shows. For the
    recursion of [_list_print_task] the bound is the depth of recursion
    the interpreter allows, and reaching it is where Python raises its
    RecursionError. *)

Inductive Exn :=
| InvalidCommand (msg : string)
| KeyError (key : string).

Inductive res (A : Type) :=
| Ok (a : A)
| Raise (e : Exn)
| OutOfFuel.
Arguments Ok {A} a.
Arguments Raise {A} e.
Arguments OutOfFuel {A}.

(** A computation over a state [S]; the state reached when an exception is
    raised is kept, as the mutations done before a Python [raise] are. *)
Definition M (S A : Type) : Type := S -> res A * S.

Definition ret {S A} (a : A) : M S A := fun s => (Ok a, s).
Definition raise {S A} (e : Exn) : M S A := fun s => (Raise e, s).
Definition out_of_fuel {S A} : M S A := fun s => (OutOfFuel, s).
Definition bind {S A B} (c : M S A) (k : A -> M S B) : M S B :=
  fun s =>
    match c s with
    | (Ok a, s') => k a s'
    | (Raise e, s') => (Raise e, s')
    | (OutOfFuel, s') => (OutOfFuel, s')
    end.
Definition modify {S} (f : S -> S) : M S unit := fun s => (Ok tt, f s).

Notation "'let*' x ':=' c 'in' k" := (bind c (fun x => k))
  (at level 10, x name, c at level 100, k at level 200).
Notation "c >>> k" := (bind c (fun _ => k))
  (at level 100, k at level 200, right associativity).

(** [for x in l: body(x)] *)
Fixpoint for_each {S A} (l : list A) (body : A -> M S unit) : M S unit :=
  match l with
  | [] => ret tt
  | x :: l' => body x >>> for_each l' body
  end.

(** [d[key]], raising [KeyError] *)
Definition getitem {S A} (d : gmap string A) (key : string) : M S A :=
  match d !! key with
  | Some a => ret a
  | None => raise (KeyError key)
  end.

(** ** The dependency store (doit.dependency.Dependency) *)

(** Modelled from the spec: the Dependency Record of the data model, kept
    per task name by doit.dependency (not part of the sources): a mapping
    from dependency file path to a content fingerprint, plus an ignored
    flag. *)
Definition Fingerprint : Type := string.

Record DepRecord := {
  fingerprints : gmap string Fingerprint;
  ignored : bool
}.

(** Modelled from the spec: the status of a task, one of ignore,
    up-to-date, run; the strings ['ignore'], ['up-to-date'], ['run'] that
    key [status_map] in doit_list. *)
Inductive Status := st_ignore | st_up_to_date | st_run.

(** The calls received by a Dependency object, oldest first. *)
Inductive DepCall :=
| CallRemove (task_name : string)
| CallRemoveAll
| CallIgnore (task_name : string)
| CallClose.

(** Modelled from the spec: a Dependency object holds the records, keyed
    by task name, and whether its handle has been released. *)
Record Dependency := {
  records : gmap string DepRecord;
  closed : bool;
  calls : list DepCall
}.

(** Modelled from the spec: the constructor [Dependency(dbFileName)] of
    doit.dependency, which is not part of the sources. It acquires the
    persisted handle; [db] is the content persisted under the file name. *)
Definition Dependency_open (db : gmap string DepRecord) : Dependency :=
  {| records := db; closed := false; calls := [] |}.

(** Modelled from the spec: [Dependency.remove(name)], absent from the
    sources: deletes the record for one task; idempotent if absent. *)
Definition dep_remove (task_name : string) (d : Dependency) : Dependency :=
  {| records := delete task_name (records d);
     closed := closed d;
     calls := calls d ++ [CallRemove task_name] |}.

(** Modelled from the spec: [Dependency.remove_all()], absent from the
    sources: clears every record. *)
Definition dep_remove_all (d : Dependency) : Dependency :=
  {| records := ∅; closed := closed d; calls := calls d ++ [CallRemoveAll] |}.

(** Modelled from the spec: the record of a task once it is marked
    ignored; the fingerprints it had are kept. *)
Definition set_ignored (r : option DepRecord) : DepRecord :=
  match r with
  | Some r => {| fingerprints := fingerprints r; ignored := true |}
  | None => {| fingerprints := ∅; ignored := true |}
  end.

(** Modelled from the spec: [Dependency.ignore(task)], absent from the
    sources: sets the ignored flag without deleting existing fingerprints;
    the record is flagged, not deleted. *)
Definition dep_ignore (t : Task) (d : Dependency) : Dependency :=
  {| records := <[name t := set_ignored (records d !! name t)]> (records d);
     closed := closed d;
     calls := calls d ++ [CallIgnore (name t)] |}.

(** Modelled from the spec: [Dependency.close()], absent from the sources:
    releases the persisted handle (the flush to disk). *)
Definition dep_close (d : Dependency) : Dependency :=
  {| records := records d; closed := true; calls := calls d ++ [CallClose] |}.

(** ** State of the forget and ignore commands: the local
    [dependencyManager] and what was written to [outstream] *)

Record Cmd := {
  dependencyManager : Dependency;
  outstream : list string
}.

Definition on_dep (f : Dependency -> Dependency) : M Cmd unit :=
  modify (fun c => {| dependencyManager := f (dependencyManager c);
                      outstream := outstream c |}).

(** [outstream.write(s)] *)
Definition write (s : string) : M Cmd unit :=
  modify (fun c => {| dependencyManager := dependencyManager c;
                      outstream := outstream c ++ [s] |}).

(** ** doit_forget *)

(** The loop [while group:] of doit_forget (lines 138-145); [fuel] bounds
    the number of iterations. *)
Fixpoint forget_group (fuel : nat) (tasks : gmap string Task)
    (group : list string) : M Cmd unit :=
  match group with
  | [] => ret tt
  | to_forget :: group =>
      match fuel with
      | 0 => out_of_fuel
      | S fuel =>
          let* t := getitem tasks to_forget in
          let group := if no_actions t then group ++ task_dep t else group in
          on_dep (dep_remove to_forget) >>>
          write ("forgeting " +:+ to_forget +:+ nl) >>>
          forget_group fuel tasks group
      end
  end.

(** The loop [for taskName in forgetTasks:] (lines 131-145). *)
Fixpoint forget_each (fuel : nat) (tasks : gmap string Task)
    (forgetTasks : list string) : M Cmd unit :=
  match forgetTasks with
  | [] => ret tt
  | taskName :: rest =>
      match tasks !! taskName with
      | None => raise (InvalidCommand ("'" +:+ taskName +:+ "' is not a task."))
      | Some _ =>
          forget_group fuel tasks [taskName] >>>
          forget_each fuel tasks rest
      end
  end.

Definition doit_forget (fuel : nat) (db : gmap string DepRecord)
    (taskList : list Task) (outstream0 : list string)
    (forgetTasks : list string) : res unit * Cmd :=
  ((match forgetTasks with
    | [] =>
        on_dep dep_remove_all >>>
        write ("forgeting all tasks" +:+ nl)
    | _ :: _ =>
        let tasks := tasks_dict taskList in
        forget_each fuel tasks forgetTasks
    end) >>>
   on_dep dep_close)
    {| dependencyManager := Dependency_open db; outstream := outstream0 |}.

(** ** doit_ignore *)

(** The loop [while group:] of doit_ignore (lines 170-177). *)
Fixpoint ignore_group (fuel : nat) (tasks : gmap string Task)
    (group : list string) : M Cmd unit :=
  match group with
  | [] => ret tt
  | to_ignore :: group =>
      match fuel with
      | 0 => out_of_fuel
      | S fuel =>
          let* t := getitem tasks to_ignore in
          let group := if no_actions t then group ++ task_dep t else group in
          on_dep (dep_ignore t) >>>
          write ("ignoring " +:+ to_ignore +:+ nl) >>>
          ignore_group fuel tasks group
      end
  end.

(** The loop [for taskName in ignoreTasks:] (lines 162-177). *)
Fixpoint ignore_each (fuel : nat) (tasks : gmap string Task)
    (ignoreTasks : list string) : M Cmd unit :=
  match ignoreTasks with
  | [] => ret tt
  | taskName :: rest =>
      match tasks !! taskName with
      | None => raise (InvalidCommand ("'" +:+ taskName +:+ "' is not a task."))
      | Some _ =>
          ignore_group fuel tasks [taskName] >>>
          ignore_each fuel tasks rest
      end
  end.

(** The result of doit_ignore: the Dependency object is [None] when the
    function returned before constructing it (line 158). *)
Record IgnoreResult := {
  ign_outcome : res unit;
  ign_dependencyManager : option Dependency;
  ign_outstream : list string
}.

Definition doit_ignore (fuel : nat) (db : gmap string DepRecord)
    (taskList : list Task) (outstream0 : list string)
    (ignoreTasks : list string) : IgnoreResult :=
  match ignoreTasks with
  | [] =>
      {| ign_outcome := Ok tt;
         ign_dependencyManager := None;
         ign_outstream :=
           outstream0 ++
           ["You cant ignore all tasks! Please select a task." +:+ nl] |}
  | _ :: _ =>
      let tasks := tasks_dict taskList in
      let '(r, c) :=
        (ignore_each fuel tasks ignoreTasks >>> on_dep dep_close)
          {| dependencyManager := Dependency_open db;
             outstream := outstream0 |} in
      {| ign_outcome := r;
         ign_dependencyManager := Some (dependencyManager c);
         ign_outstream := outstream c |}
  end.

(** ** Status queries and commits of the dependency store *)

(** Modelled from the spec: the stored fingerprint of file [f] equals its
    current one in the file system [fs]; a file missing on either side
    does not match. *)
Definition fingerprint_matches (fs : gmap string Fingerprint) (r : DepRecord)
    (f : string) : bool :=
  match fs !! f, fingerprints r !! f with
  | Some now, Some stored => bool_decide (now = stored)
  | _, _ => false
  end.

(** Modelled from the spec: every required task is known and up-to-date;
    [None] when a status query did not finish. *)
Fixpoint all_up_to_date (status : Task -> option Status)
    (graph : gmap string Task) (deps : list string) : option bool :=
  match deps with
  | [] => Some true
  | n :: deps =>
      match graph !! n with
      | None => Some false
      | Some td =>
          match status td with
          | None => None
          | Some st_up_to_date => all_up_to_date status graph deps
          | Some _ => Some false
          end
      end
  end.

(** Modelled from the spec: [Dependency.get_status(task)], absent from the
    sources: ignore if the record's ignored flag is set; else run if a
    file_dep fingerprint differs from the stored one or is missing, or a
    required task is not up-to-date; otherwise up-to-date. Absence of a
    record means never run. [graph] resolves task_dep names, [fs] gives
    the current fingerprint of each existing file and [fuel] bounds the
    recursion through task_dep. *)
Fixpoint get_status (fuel : nat) (graph : gmap string Task)
    (fs : gmap string Fingerprint) (d : Dependency) (t : Task)
    : option Status :=
  match records d !! name t with
  | None => Some st_run
  | Some r =>
      if ignored r then Some st_ignore
      else if negb (forallb (fingerprint_matches fs r) (file_dep t))
      then Some st_run
      else
        match task_dep t, fuel with
        | [], _ => Some st_up_to_date
        | _ :: _, 0 => None
        | deps, S fuel =>
            match all_up_to_date (get_status fuel graph fs d) graph deps with
            | None => None
            | Some true => Some st_up_to_date
            | Some false => Some st_run
            end
        end
  end.

(** Modelled from the spec: [Dependency.commit(task, fingerprints)], absent
    from the sources: replaces the stored fingerprints of the task. *)
Definition dep_commit (t : Task) (fps : gmap string Fingerprint)
    (d : Dependency) : Dependency :=
  {| records :=
       <[name t := {| fingerprints := fps;
                      ignored := match records d !! name t with
                                 | Some r => ignored r
                                 | None => false
                                 end |}]> (records d);
     closed := closed d;
     calls := calls d |}.

(** ** doit_list *)

(** [status_map = {'ignore': 'I', 'up-to-date': 'U', 'run': 'R'}] *)
Definition status_map (s : Status) : string :=
  match s with
  | st_ignore => "I"
  | st_up_to_date => "U"
  | st_run => "R"
  end.

(** [outstream.write(s)] where the stream is the only state *)
Definition swrite (s : string) : M (list string) unit :=
  modify (fun out => out ++ [s]).

(** A status query inside a command; an unfinished query does not return. *)
Definition query {S} (o : option Status) : M S Status :=
  match o with
  | Some st => ret st
  | None => out_of_fuel
  end.

Definition nonempty (s : string) : bool :=
  match s with EmptyString => false | String _ _ => true end.

(** [[f(x) for x in l]] *)
Fixpoint map_m {S A B} (f : A -> M S B) (l : list A) : M S (list B) :=
  match l with
  | [] => ret []
  | x :: l' =>
      let* y := f x in
      let* ys := map_m f l' in
      ret (y :: ys)
  end.

Section list_print_task.
(* what the closure _list_print_task captures *)
Variables (print_subtasks print_doc print_status : bool).
Variable tasks : gmap string Task.
Variable dependencyManager : Dependency.
(* the file system seen by get_status and the budget of a status query *)
Variable fs : gmap string Fingerprint.
Variable status_fuel : nat.

(** The text written for one task (lines 79-87). *)
Definition task_line (task : Task) : M (list string) string :=
  let task_str := name task in
  let task_str :=
    if print_doc && nonempty (doc task)
    then task_str +:+ tab +:+ "* " +:+ doc task
    else task_str in
  let* task_str :=
    if print_status then
      let* task_uptodate :=
        query (get_status status_fuel tasks fs dependencyManager task) in
      ret (status_map task_uptodate +:+ " " +:+ task_str)
    else ret task_str in
  ret (task_str +:+ nl).

(** [_list_print_task] (lines 77-92); [depth] is the depth of recursion the
    interpreter allows: a listing that needs more ends there, with
    [OutOfFuel] standing for Python's RecursionError. *)
Fixpoint _list_print_task (depth : nat) (task : Task)
    : M (list string) unit :=
  match depth with
  | 0 => out_of_fuel
  | S depth =>
      let* line := task_line task in
      swrite line >>>
      if print_subtasks then
        for_each (task_dep task) (fun subt =>
          if startswith subt (name task) then
            let* t := getitem tasks subt in
            _list_print_task depth t
          else ret tt)
      else ret tt
  end.
End list_print_task.

Definition doit_list (depth status_fuel : nat) (fs : gmap string Fingerprint)
    (dependencyFile : gmap string DepRecord) (task_list : list Task)
    (outstream0 : list string) (filter_tasks : list string)
    (print_subtasks print_doc print_status print_private : bool)
    : res Z * list string :=
  (let tasks := tasks_dict task_list in
   let* print_tasks :=
     match filter_tasks with
     | [] => ret task_list
     | _ :: _ => map_m (getitem tasks) filter_tasks
     end in
   let dependencyManager := Dependency_open dependencyFile in
   for_each print_tasks (fun task =>
     if bool_decide (filter_tasks = []) && is_subtask task then ret tt
     else if negb print_private && startswith (name task) "_" then ret tt
     else _list_print_task print_subtasks print_doc print_status tasks
            dependencyManager fs status_fuel depth task) >>>
   ret 0%Z) outstream0.

(** ** doit_run *)

(** [output] is a file name, opened for writing, or a file-like object. *)
Inductive Output :=
| OutputPath (path : string)
| OutputStream (stream : string).

(** The call [run_tasks(dependencyFile, selected_tasks, reporter_obj,
    verbosity, alwaysExecute, continue_)] of line 39, with the arguments
    the reporter object was built from. *)
Record RunnerCall (ReporterCls : Type) := {
  rc_dependencyFile : string;
  rc_selected_tasks : list Task;
  rc_reporter_cls : ReporterCls;
  rc_outstream : Output;
  rc_show_out : bool;
  rc_verbosity : option Z;
  rc_alwaysExecute : bool;
  rc_continue : bool
}.
Arguments rc_dependencyFile {ReporterCls} _.
Arguments rc_selected_tasks {ReporterCls} _.
Arguments rc_reporter_cls {ReporterCls} _.
Arguments rc_outstream {ReporterCls} _.
Arguments rc_show_out {ReporterCls} _.
Arguments rc_verbosity {ReporterCls} _.
Arguments rc_alwaysExecute {ReporterCls} _.
Arguments rc_continue {ReporterCls} _.

(** How far doit_run gets: an exception raised by task selection or by the
    reporter check (lines 18-22), no answer from task selection, or past
    both checks with the call of line 39 ready. [RunTasks] is the only way
    into the runner; what lies between the checks and the runner, opening
    [output] when it is a file name (line 32) and building the reporter
    object (line 37), is not looked into and can still raise. *)
Inductive RunOutcome (ReporterCls : Type) :=
| RunRaised (e : Exn)
| RunNoAnswer
| RunTasks (call : RunnerCall ReporterCls).
Arguments RunRaised {ReporterCls} e.
Arguments RunNoAnswer {ReporterCls}.
Arguments RunTasks {ReporterCls} call.

Section commands.
Context {ReporterCls : Type}.
(* [TaskSetup(task_list, options).process()] of doit.main *)
Variable process : list Task -> option (list string) -> res (list Task).
(* the registry doit.reporter.REPORTERS *)
Variable REPORTERS : gmap string ReporterCls.
(* Task.DEFAULT_VERBOSITY *)
Variable DEFAULT_VERBOSITY : Z.
(* os.path.abspath and os.path.dirname *)
Variables abspath dirname : string -> string.

Definition doit_run (dependencyFile : string) (task_list : list Task)
    (output : Output) (options : option (list string))
    (verbosity : option Z) (alwaysExecute continue_ : bool)
    (reporter : string) : RunOutcome ReporterCls :=
  match process task_list options with
  | Raise e => RunRaised e
  | OutOfFuel => RunNoAnswer
  | Ok selected_tasks =>
      match REPORTERS !! reporter with
      | None =>
          RunRaised (InvalidCommand
            ("No reporter named '" +:+ reporter +:+ "'." +:+ nl +:+
             "Type 'doit help run' to see a list of available reporters."))
      | Some reporter_cls =>
          let use_verbosity :=
            match verbosity with
            | None => DEFAULT_VERBOSITY
            | Some v => v
            end in
          let show_out := bool_decide (use_verbosity < 2)%Z in
          RunTasks
            {| rc_dependencyFile := dependencyFile;
               rc_selected_tasks := selected_tasks;
               rc_reporter_cls := reporter_cls;
               rc_outstream := output;
               rc_show_out := show_out;
               rc_verbosity := verbosity;
               rc_alwaysExecute := alwaysExecute;
               rc_continue := continue_ |}
      end
  end.

(** ** FileModifyWatcher *)

Record FileModifyWatcher := {
  file_list : gset string;
  watch_dirs : gset string
}.

(** [FileModifyWatcher.__init__] *)
Definition FileModifyWatcher_init (files : list string)
    : FileModifyWatcher :=
  let fl : gset string := list_to_set (abspath <$> files) in
  {| file_list := fl;
     watch_dirs := list_to_set (dirname <$> elements fl) |}.

(** An inotify event, as far as it is read. *)
Record Event := { pathname : string }.

(** What the watch loop has done: the directories passed to
    [wm.add_watch], and the events handle_event was invoked on, with how
    the run it started ended. *)
Record Watching := {
  watches : list string;
  invocations : list (Event * RunOutcome ReporterCls)
}.

(** [FileModifyWatcher._handle] *)
Definition _handle (self : FileModifyWatcher)
    (handle_event : Event -> M Watching unit) (event : Event)
    : M Watching unit :=
  if bool_decide (pathname event ∈ file_list self)
  then handle_event event
  else ret tt.

Definition add_watch (watch_this : string) : M Watching unit :=
  modify (fun w => {| watches := watches w ++ [watch_this];
                      invocations := invocations w |}).

(** [FileModifyWatcher.loop]: the watches are installed, then the
    notifier hands each event of [events] to [_handle]. *)
Definition loop (self : FileModifyWatcher)
    (handle_event : Event -> M Watching unit) (events : list Event)
    : M Watching unit :=
  for_each (elements (watch_dirs self)) add_watch >>>
  for_each events (_handle self handle_event).

(** ** doit_auto *)

(** [DoitAutoRun.handle_event]: an exception of doit_run leaves the loop;
    the value the runner returns is dropped. *)
Definition handle_event (dependency_file : string) (task_list : list Task)
    (filter_tasks : option (list string)) (event : Event)
    : M Watching unit :=
  let r := doit_run dependency_file task_list (OutputStream "sys.stdout")
             filter_tasks None false false "executed-only" in
  modify (fun w => {| watches := watches w;
                      invocations := invocations w ++ [(event, r)] |}) >>>
  match r with
  | RunRaised e => raise e
  | RunNoAnswer => out_of_fuel
  | RunTasks _ => ret tt
  end.

Definition doit_auto (dependency_file : string) (task_list : list Task)
    (filter_tasks : option (list string)) (events : list Event)
    : M Watching unit :=
  match process task_list filter_tasks with
  | Raise e => raise e
  | OutOfFuel => out_of_fuel
  | Ok selected_tasks =>
      let watch_files := concat (file_dep <$> selected_tasks) in
      let fw := FileModifyWatcher_init watch_files in
      loop fw (handle_event dependency_file task_list filter_tasks) events
  end.
End commands.

(** ** Auxiliary definitions for the statements *)

(** The names popped by a [while group:] loop started on [group], in the
    order they are popped, and how the loop ends. *)
Fixpoint expand (fuel : nat) (tasks : gmap string Task)
    (group : list string) : list string * res unit :=
  match group with
  | [] => ([], Ok tt)
  | x :: group =>
      match fuel with
      | 0 => ([], OutOfFuel)
      | S fuel =>
          match tasks !! x with
          | None => ([], Raise (KeyError x))
          | Some t =>
              let '(popped, r) :=
                expand fuel tasks
                  (if no_actions t then group ++ task_dep t else group) in
              (x :: popped, r)
          end
      end
  end.

(** One iteration of the forget loop on the state. *)
Definition forget_one (c : Cmd) (to_forget : string) : Cmd :=
  {| dependencyManager := dep_remove to_forget (dependencyManager c);
     outstream := outstream c ++ ["forgeting " +:+ to_forget +:+ nl] |}.

(** One iteration of the ignore loop on the state. *)
Definition ignore_one (tasks : gmap string Task) (c : Cmd)
    (to_ignore : string) : Cmd :=
  match tasks !! to_ignore with
  | Some t =>
      {| dependencyManager := dep_ignore t (dependencyManager c);
         outstream := outstream c ++ ["ignoring " +:+ to_ignore +:+ nl] |}
  | None => c
  end.

(** The state a command starts from. *)
Definition start (db : gmap string DepRecord) (outstream0 : list string)
    : Cmd :=
  {| dependencyManager := Dependency_open db; outstream := outstream0 |}.

(** The message of the unknown-name command error. *)
Definition not_a_task (taskName : string) : Exn :=
  InvalidCommand ("'" +:+ taskName +:+ "' is not a task.").

(** An edge of the graph the work-list loops walk: from a group task (no
    actions) to a member of its task_dep. *)
Definition group_edge (tasks : gmap string Task) (g m : string) : Prop :=
  exists t, tasks !! g = Some t /\ no_actions t = true /\ m ∈ task_dep t.

(** No cycle of group edges can be reached from [x]. *)
Definition acyclic_from (tasks : gmap string Task) (x : string) : Prop :=
  forall y, rtc (group_edge tasks) x y -> ~ tc (group_edge tasks) y y.

(** Modelled from the spec: the name resolution of [TaskSetup.process]
    (doit.main, absent from the sources): with no requested names the plan
    is every top-level (non-subtask) task in declaration order; each
    requested name is resolved to a task, and an unknown name fails with a
    not-a-task error naming the offending identifier. Group expansion and
    ordering are not modelled. *)
Definition resolve_names (task_list : list Task)
    (options : option (list string)) : res (list Task) :=
  match options with
  | None | Some [] => Ok (filter (fun t => is_subtask t = false) task_list)
  | Some names =>
      fst (map_m (S := unit)
             (fun n => match tasks_dict task_list !! n with
                       | Some t => ret t
                       | None => raise (not_a_task n)
                       end) names tt)
  end.

(** The names popped while the loop over the requested names runs, and how
    that loop ends. *)
Fixpoint expand_each (fuel : nat) (tasks : gmap string Task)
    (names : list string) : list string * res unit :=
  match names with
  | [] => ([], Ok tt)
  | taskName :: rest =>
      match tasks !! taskName with
      | None => ([], Raise (not_a_task taskName))
      | Some _ =>
          match expand fuel tasks [taskName] with
          | (popped, Ok _) =>
              let '(popped', r) := expand_each fuel tasks rest in
              (popped ++ popped', r)
          | (popped, r) => (popped, r)
          end
      end
  end.


(** ** A small project used for concrete runs: a group [g] of the two
    tasks [x] and [y], and a store with records for [g], [x] and [z]. *)

Definition mk_task (n : string) (acts : list Action) (files deps : list string)
    : Task :=
  {| name := n; actions := acts; file_dep := files; task_dep := deps;
     doc := EmptyString; is_subtask := false |}.

Definition demo_tasks : list Task :=
  [ mk_task "g" [] [] ["x"; "y"];
    mk_task "x" [CmdAction "touch x.out"] ["x.in"] [];
    mk_task "y" [CmdAction "touch y.out"] ["y.in"] [] ].

Definition demo_record : DepRecord :=
  {| fingerprints := {[ "x.in" := "md5-1" ]}; ignored := false |}.

Definition demo_db : gmap string DepRecord :=
  {[ "g" := {| fingerprints := ∅; ignored := false |};
     "x" := demo_record;
     "z" := {| fingerprints := ∅; ignored := false |} ]}.

(** In the call log [l], some call [a] is followed later by a call [b]. *)
Definition called_before (a b : DepCall) (l : list DepCall) : Prop :=
  exists l1 l2, l = l1 ++ a :: l2 /\ b ∈ l2.

(** [cost tasks x n]: popping [x] and everything it brings onto the work
    list takes [n] iterations; [cost_list] adds this up over a work list. *)
Inductive cost (tasks : gmap string Task) : string -> nat -> Prop :=
| cost_missing x :
    tasks !! x = None -> cost tasks x 1
| cost_leaf x t :
    tasks !! x = Some t -> no_actions t = false -> cost tasks x 1
| cost_group x t n :
    tasks !! x = Some t -> no_actions t = true ->
    cost_list tasks (task_dep t) n -> cost tasks x (S n)
with cost_list (tasks : gmap string Task) : list string -> nat -> Prop :=
| cost_nil : cost_list tasks [] 0
| cost_cons x l n m :
    cost tasks x n -> cost_list tasks l m -> cost_list tasks (x :: l) (n + m).

(** A cycle of group edges can be reached from [x]. *)
Definition reaches_cycle (tasks : gmap string Task) (x : string) : Prop :=
  exists y, rtc (group_edge tasks) x y /\ tc (group_edge tasks) y y.

(** Every name the loop can bring onto the work list from [x] is a task. *)
Definition members_resolve (tasks : gmap string Task) (x : string) : Prop :=
  forall y, rtc (group_edge tasks) x y -> is_Some (tasks !! y).

(** The task with its is_subtask flag replaced by [flags t]. *)
Definition reflag (flags : Task -> bool) (t : Task) : Task :=
  {| name := name t; actions := actions t; file_dep := file_dep t;
     task_dep := task_dep t; doc := doc t; is_subtask := flags t |}.

(** The text of a task line before the status letter is put in front. *)
Definition task_text (print_doc : bool) (task : Task) : string :=
  if print_doc && nonempty (doc task)
  then name task +:+ tab +:+ "* " +:+ doc task
  else name task.

(** The tasks a loop lists: [collect body l] goes through [l] as
    [for_each] does, [body x] giving the tasks listed for [x] and how that
    ended, and stops where [for_each] stops. *)
Fixpoint collect {A} (body : A -> list Task * res unit) (l : list A)
    : list Task * res unit :=
  match l with
  | [] => ([], Ok tt)
  | x :: l' =>
      match body x with
      | (ts, Ok _) =>
          let '(ts', r) := collect body l' in
          (ts ++ ts', r)
      | (ts, r) => (ts, r)
      end
  end.

(** The tasks whose lines [_list_print_task] writes for [task], in the
    order of their lines, and how the call ends when every line can be
    made (lines 87-92). *)
Fixpoint listed_under (print_subtasks : bool) (tasks : gmap string Task)
    (depth : nat) (task : Task) : list Task * res unit :=
  match depth with
  | 0 => ([], OutOfFuel)
  | S depth =>
      let '(ts, r) :=
        if print_subtasks then
          collect (fun subt =>
            if startswith subt (name task) then
              match tasks !! subt with
              | Some t => listed_under print_subtasks tasks depth t
              | None => ([], Raise (KeyError subt))
              end
            else ([], Ok tt)) (task_dep task)
        else ([], Ok tt) in
      (task :: ts, r)
  end.

(** The tasks whose lines doit_list writes, in the order of their lines,
    and how doit_list ends when every line can be made (lines 95-113). *)
Definition listed (depth : nat) (task_list : list Task)
    (filter_tasks : list string) (print_subtasks print_private : bool)
    : list Task * res Z :=
  let tasks := tasks_dict task_list in
  match
    match filter_tasks with
    | [] => Ok task_list
    | _ :: _ => fst (map_m (S := unit) (getitem tasks) filter_tasks tt)
    end
  with
  | Ok print_tasks =>
      let '(ts, r) :=
        collect (fun task =>
          if bool_decide (filter_tasks = []) && is_subtask task
          then ([], Ok tt)
          else if negb print_private && startswith (name task) "_"
          then ([], Ok tt)
          else listed_under print_subtasks tasks depth task) print_tasks in
      (ts, match r with
           | Ok _ => Ok 0%Z
           | Raise e => Raise e
           | OutOfFuel => OutOfFuel
           end)
  | Raise e => ([], Raise e)
  | OutOfFuel => ([], OutOfFuel)
  end.

(** The line of a task behind the letter of a status. *)
Definition status_line (print_doc : bool) (st : Status) (task : Task)
    : string :=
  status_map st +:+ " " +:+ task_text print_doc task +:+ nl.

(** The message of the unknown-reporter command error (lines 20-22). *)
Definition no_reporter (reporter : string) : Exn :=
  InvalidCommand
    ("No reporter named '" +:+ reporter +:+ "'." +:+ nl +:+
     "Type 'doit help run' to see a list of available reporters.").

(** ** A small watch setting used for concrete runs *)

Definition demo_abspath (f : string) : string := "/proj/" +:+ f.

Definition demo_dirname (p : string) : string := "/proj".

Definition demo_reporters : gmap string unit := {[ "executed-only" := tt ]}.

Definition demo_events : list Event :=
  [ {| pathname := "/proj/x.in" |};
    {| pathname := "/proj/notes.txt" |};
    {| pathname := "/proj/y.in" |} ].

(** ** A small project used for concrete listings: [build] depends on its
    subtask [build:a], on [lint] and on the ordinary task [builder]. *)

Definition demo_listing : list Task :=
  [ {| name := "build"; actions := []; file_dep := [];
       task_dep := ["build:a"; "lint"; "builder"];
       doc := "compile"; is_subtask := false |};
    {| name := "build:a"; actions := [CmdAction "cc a.c"];
       file_dep := ["a.c"]; task_dep := [];
       doc := EmptyString; is_subtask := true |};
    mk_task "lint" [CmdAction "lint"] [] [];
    mk_task "builder" [CmdAction "make builder"] [] [] ].

(** A group task that names itself as its member. *)
Definition self_group : list Task := [ mk_task "loop" [] [] ["loop"] ].

(** ** doit_clean *)

Section clean.
Context {S : Type}.
(* [task.clean(outstream, dryrun)] of doit.task; the stream it writes to is
   part of the state *)
Variable clean : Task -> bool -> M S unit.

Definition doit_clean (task_list : list Task) (dryrun : bool)
    (clean_tasks : list string) : M S unit :=
  match clean_tasks with
  | [] =>
      (* clean all tasks *)
      for_each task_list (fun task_ => clean task_ dryrun)
  | _ :: _ =>
      let tasks := tasks_dict task_list in
      for_each clean_tasks (fun name =>
        let* t := getitem tasks name in
        clean t dryrun)
  end.
End clean.

(** ** Further auxiliary definitions *)

(** A task whose [clean] only records that it was called, and how. *)
Definition log_clean (t : Task) (dryrun : bool)
    : M (list (string * bool)) unit :=
  modify (fun calls => calls ++ [(name t, dryrun)]).

(** The line doit_forget writes for a removed name. *)
Definition forgeting (x : string) : string := "forgeting " +:+ x +:+ nl.

(** The line doit_ignore writes for an ignored name. *)
Definition ignoring (x : string) : string := "ignoring " +:+ x +:+ nl.

(** The records a command leaves; none when no Dependency was built. *)
Definition ign_records (r : IgnoreResult) : option (gmap string DepRecord) :=
  records <$> ign_dependencyManager r.

(** The tasks the top-level loop of doit_list prints when no filter is
    given (lines 106-111). *)
Definition listed_by_default (print_private : bool) (t : Task) : bool :=
  negb (is_subtask t) &&
  negb (negb print_private && startswith (name t) "_").

(** The tasks the top-level loop of doit_list prints when a filter is
    given. *)
Definition listed_when_named (print_private : bool) (t : Task) : bool :=
  negb (negb print_private && startswith (name t) "_").



(** The records the Dependency object of doit_forget holds when the
    command ends, however it ends. After a normal return the object is
    closed and these are the records of the store; a run that raises
    leaves the object unclosed and nothing of it flushed. *)
Definition records_after_forget (fuel : nat) (db : gmap string DepRecord)
    (taskList : list Task) (names : list string) : gmap string DepRecord :=
  records (dependencyManager (snd (doit_forget fuel db taskList [] names))).

(** The records the Dependency object of doit_ignore holds when the
    command ends, however it ends, and the records it was given when
    doit_ignore refused to run. After a normal return the object is closed
    and these are the records of the store; a run that raises leaves the
    object unclosed and nothing of it flushed. *)
Definition records_after_ignore (fuel : nat) (db : gmap string DepRecord)
    (taskList : list Task) (names : list string) : gmap string DepRecord :=
  match ign_dependencyManager (doit_ignore fuel db taskList [] names) with
  | Some d => records d
  | None => db
  end.

(** * Properties *)

(** ** The task dictionary *)

Lemma tasks_dict_snoc (l : list Task) (t : Task) :
  tasks_dict (l ++ [t]) = <[name t := t]> (tasks_dict l).
Proof. unfold tasks_dict. by rewrite fold_left_app. Qed.

Lemma tasks_dict_name (l : list Task) (k : string) (t : Task) :
  tasks_dict l !! k = Some t -> name t = k /\ t ∈ l.
Proof.
  induction l as [|u l IH] using rev_ind.
  - unfold tasks_dict; simpl. by rewrite lookup_empty.
  - rewrite tasks_dict_snoc. intros H.
    destruct (decide (name u = k)) as [<-|Hne].
    + rewrite lookup_insert_eq in H. injection H as ->.
      split; [done |]. apply elem_of_app. right. by apply list_elem_of_singleton.
    + rewrite lookup_insert_ne in H by done.
      destruct (IH H) as [? ?]. split; [done |]. apply elem_of_app. by left.
Qed.

Lemma tasks_dict_lookup (l : list Task) (t : Task) :
  NoDup (name <$> l) -> t ∈ l -> tasks_dict l !! name t = Some t.
Proof.
  induction l as [|u l IH] using rev_ind; intros Hnd Hin.
  - by apply elem_of_nil in Hin.
  - rewrite tasks_dict_snoc. rewrite fmap_app in Hnd.
    apply NoDup_app in Hnd as (Hl & Hdisj & _).
    apply elem_of_app in Hin as [Hin|Hin].
    + rewrite lookup_insert_ne; [by apply IH |].
      intros Heq. apply (Hdisj (name t)).
      * apply list_elem_of_fmap. eauto.
      * rewrite <- Heq. simpl. apply list_elem_of_singleton. done.
    + apply list_elem_of_singleton in Hin as ->. apply lookup_insert_eq.
Qed.

(** ** The work-list loops, through the names they pop *)

Lemma forget_group_expand (fuel : nat) (tasks : gmap string Task)
    (group : list string) (c : Cmd) :
  forget_group fuel tasks group c =
  (snd (expand fuel tasks group),
   fold_left forget_one (fst (expand fuel tasks group)) c).
Proof.
  revert group c. induction fuel as [|fuel IH]; intros [|x group] c;
    try reflexivity.
  simpl. unfold bind, getitem. destruct (tasks !! x) as [t|]; [|reflexivity].
  simpl. rewrite IH.
  destruct (expand fuel tasks _) as [popped r]. reflexivity.
Qed.

Lemma ignore_group_expand (fuel : nat) (tasks : gmap string Task)
    (group : list string) (c : Cmd) :
  ignore_group fuel tasks group c =
  (snd (expand fuel tasks group),
   fold_left (ignore_one tasks) (fst (expand fuel tasks group)) c).
Proof.
  revert group c. induction fuel as [|fuel IH]; intros [|x group] c;
    try reflexivity.
  simpl. unfold bind, getitem.
  destruct (tasks !! x) as [t|] eqn:Hx; [|reflexivity].
  simpl. rewrite IH.
  destruct (expand fuel tasks _) as [popped r]. simpl.
  do 2 f_equal. unfold ignore_one. by rewrite Hx.
Qed.

Lemma forget_each_expand (fuel : nat) (tasks : gmap string Task)
    (names : list string) (c : Cmd) :
  forget_each fuel tasks names c =
  (snd (expand_each fuel tasks names),
   fold_left forget_one (fst (expand_each fuel tasks names)) c).
Proof.
  revert c. induction names as [|n rest IH]; intros c; [reflexivity|].
  simpl. destruct (tasks !! n) as [t|]; [|reflexivity].
  unfold bind. rewrite forget_group_expand.
  destruct (expand fuel tasks [n]) as [popped [[]| |]]; simpl; try reflexivity.
  rewrite IH. destruct (expand_each fuel tasks rest) as [popped' r]. simpl.
  by rewrite fold_left_app.
Qed.

Lemma ignore_each_expand (fuel : nat) (tasks : gmap string Task)
    (names : list string) (c : Cmd) :
  ignore_each fuel tasks names c =
  (snd (expand_each fuel tasks names),
   fold_left (ignore_one tasks) (fst (expand_each fuel tasks names)) c).
Proof.
  revert c. induction names as [|n rest IH]; intros c; [reflexivity|].
  simpl. destruct (tasks !! n) as [t|]; [|reflexivity].
  unfold bind. rewrite ignore_group_expand.
  destruct (expand fuel tasks [n]) as [popped [[]| |]]; simpl; try reflexivity.
  rewrite IH. destruct (expand_each fuel tasks rest) as [popped' r]. simpl.
  by rewrite fold_left_app.
Qed.

(** ** What the iterations do to the store *)

Lemma fold_forget_calls (popped : list string) (c : Cmd) :
  calls (dependencyManager (fold_left forget_one popped c)) =
  calls (dependencyManager c) ++ (CallRemove <$> popped).
Proof.
  revert c. induction popped as [|x popped IH]; intros c; simpl.
  - by rewrite app_nil_r.
  - rewrite IH. simpl. by rewrite <- app_assoc.
Qed.

Lemma fold_forget_closed (popped : list string) (c : Cmd) :
  closed (dependencyManager (fold_left forget_one popped c)) =
  closed (dependencyManager c).
Proof.
  revert c. induction popped as [|x popped IH]; intros c; simpl; [done|].
  by rewrite IH.
Qed.

Lemma fold_forget_records (popped : list string) (c : Cmd) :
  records (dependencyManager (fold_left forget_one popped c)) =
  fold_left (fun m x => delete x m) popped (records (dependencyManager c)).
Proof.
  revert c. induction popped as [|x popped IH]; intros c; simpl; [done|].
  by rewrite IH.
Qed.

Lemma fold_forget_outstream (popped : list string) (c : Cmd) :
  outstream (fold_left forget_one popped c) =
  outstream c ++ ((fun x => "forgeting " +:+ x +:+ nl) <$> popped).
Proof.
  revert c. induction popped as [|x popped IH]; intros c; simpl.
  - by rewrite app_nil_r.
  - rewrite IH. simpl. by rewrite <- app_assoc.
Qed.

Lemma fold_ignore_closed (tasks : gmap string Task) (popped : list string)
    (c : Cmd) :
  closed (dependencyManager (fold_left (ignore_one tasks) popped c)) =
  closed (dependencyManager c).
Proof.
  revert c. induction popped as [|x popped IH]; intros c; simpl; [done|].
  rewrite IH. unfold ignore_one. by destruct (tasks !! x).
Qed.



(** ** Ignore guard *)

(** C4: invoked with an empty task list, doit_ignore writes the refusal
    telling the user to select a task and returns at once: no Dependency
    object is constructed, so no record is created, removed or flagged, and
    no task is processed. *)
Theorem doit_ignore_empty_refuses (fuel : nat) (db : gmap string DepRecord)
    (taskList : list Task) (outstream0 : list string) :
  doit_ignore fuel db taskList outstream0 [] =
  {| ign_outcome := Ok tt;
     ign_dependencyManager := None;
     ign_outstream :=
       outstream0 ++
       ["You cant ignore all tasks! Please select a task." +:+ nl] |}.
Proof. reflexivity. Qed.

(** ** Closing the store *)



(** ** The unknown-name command error *)

Lemma forget_each_app (fuel : nat) (tasks : gmap string Task)
    (l1 l2 : list string) (c : Cmd) :
  forget_each fuel tasks (l1 ++ l2) c =
  (forget_each fuel tasks l1 >>> forget_each fuel tasks l2) c.
Proof.
  revert c. induction l1 as [|n l1 IH]; intros c; [reflexivity|].
  simpl. destruct (tasks !! n); [|reflexivity].
  unfold bind.
  destruct (forget_group fuel tasks [n] c) as [[[]| |] c1]; try reflexivity.
  apply IH.
Qed.

Lemma ignore_each_app (fuel : nat) (tasks : gmap string Task)
    (l1 l2 : list string) (c : Cmd) :
  ignore_each fuel tasks (l1 ++ l2) c =
  (ignore_each fuel tasks l1 >>> ignore_each fuel tasks l2) c.
Proof.
  revert c. induction l1 as [|n l1 IH]; intros c; [reflexivity|].
  simpl. destruct (tasks !! n); [|reflexivity].
  unfold bind.
  destruct (ignore_group fuel tasks [n] c) as [[[]| |] c1]; try reflexivity.
  apply IH.
Qed.

Lemma doit_forget_names (fuel : nat) (db : gmap string DepRecord)
    (taskList : list Task) (outstream0 : list string) (names : list string) :
  names <> [] ->
  doit_forget fuel db taskList outstream0 names =
  (forget_each fuel (tasks_dict taskList) names >>> on_dep dep_close)
    (start db outstream0).
Proof. by destruct names. Qed.

Lemma doit_ignore_names (fuel : nat) (db : gmap string DepRecord)
    (taskList : list Task) (outstream0 : list string) (names : list string) :
  names <> [] ->
  doit_ignore fuel db taskList outstream0 names =
  let '(r, c) :=
    (ignore_each fuel (tasks_dict taskList) names >>> on_dep dep_close)
      (start db outstream0) in
  {| ign_outcome := r;
     ign_dependencyManager := Some (dependencyManager c);
     ign_outstream := outstream c |}.
Proof. by destruct names. Qed.

(** C1 as stated fails: with a task name before the unknown one, the
    record of the task is already removed (or already marked ignored) when
    the command error is raised. *)
Lemma unknown_name_after_task_changes_store :
  let r := doit_forget 5 demo_db demo_tasks [] ["x"; "nope"] in
  let r' := doit_ignore 5 demo_db demo_tasks [] ["x"; "nope"] in
  demo_db !! "x" = Some demo_record /\
  fst r = Raise (not_a_task "nope") /\
  records (dependencyManager (snd r)) !! "x" = None /\
  calls (dependencyManager (snd r)) = [CallRemove "x"] /\
  ign_outcome r' = Raise (not_a_task "nope") /\
  (ign_dependencyManager r' ≫= fun d => records d !! "x")
    = Some {| fingerprints := fingerprints demo_record; ignored := true |} /\
  (calls <$> ign_dependencyManager r') = Some [CallIgnore "x"].
Proof. vm_compute. repeat split. Qed.

(** ** Group semantics of forget and ignore *)

Lemma no_actions_true (t : Task) : actions t = [] -> no_actions t = true.
Proof. unfold no_actions. by intros ->. Qed.

Lemma no_actions_false (t : Task) : actions t <> [] -> no_actions t = false.
Proof. unfold no_actions. by destruct (actions t). Qed.

Lemma expand_leaf (fuel : nat) (tasks : gmap string Task) (l : string)
    (L : Task) :
  tasks !! l = Some L -> no_actions L = false ->
  expand (S fuel) tasks [l] = ([l], Ok tt).
Proof. intros Hl HL. simpl. rewrite Hl, HL. by destruct fuel. Qed.

Lemma expand_group_of_two (fuel : nat) (tasks : gmap string Task)
    (g x y : string) (G X Y : Task) :
  tasks !! g = Some G -> tasks !! x = Some X -> tasks !! y = Some Y ->
  no_actions G = true -> task_dep G = [x; y] ->
  no_actions X = false -> no_actions Y = false ->
  expand (S (S (S fuel))) tasks [g] = ([g; x; y], Ok tt).
Proof.
  intros Hg Hx Hy HG Hdep HX HY.
  cbn [expand]. rewrite Hg, HG, Hdep. cbn [app].
  rewrite Hx, HX, Hy, HY. by destruct fuel.
Qed.

Lemma set_ignored_idem (r : option DepRecord) :
  set_ignored (Some (set_ignored r)) = set_ignored r.
Proof. by destruct r. Qed.

(** C2: forgetting a group task G without actions whose task_dep is X, Y
    (tasks with actions) removes the records of G, X and Y and no other;
    ignoring it marks these three records ignored and changes no other;
    forgetting a task that has actions removes its own record only. Task
    names are unique, as the data model has them. *)
Theorem group_members_forgotten_and_ignored (fuel : nat)
    (db : gmap string DepRecord) (taskList : list Task)
    (outstream0 : list string) :
  NoDup (name <$> taskList) ->
  (forall G X Y : Task,
     G ∈ taskList -> X ∈ taskList -> Y ∈ taskList ->
     actions G = [] -> task_dep G = [name X; name Y] ->
     actions X <> [] -> actions Y <> [] -> 3 <= fuel ->
     (exists c,
        doit_forget fuel db taskList outstream0 [name G] = (Ok tt, c) /\
        forall n,
          records (dependencyManager c) !! n =
          if bool_decide (n ∈ [name G; name X; name Y]) then None
          else db !! n) /\
     (exists d,
        ign_outcome (doit_ignore fuel db taskList outstream0 [name G])
          = Ok tt /\
        ign_dependencyManager
          (doit_ignore fuel db taskList outstream0 [name G]) = Some d /\
        forall n,
          records d !! n =
          if bool_decide (n ∈ [name G; name X; name Y])
          then Some (set_ignored (db !! n))
          else db !! n)) /\
  (forall L : Task,
     L ∈ taskList -> actions L <> [] -> 1 <= fuel ->
     exists c,
       doit_forget fuel db taskList outstream0 [name L] = (Ok tt, c) /\
       forall n,
         records (dependencyManager c) !! n =
         if bool_decide (n = name L) then None else db !! n).
Proof.
  intros Hnd. split.
  - intros G X Y HGin HXin HYin HG Hdep HX HY Hfuel.
    destruct fuel as [|[|[|fuel]]]; try lia.
    pose proof (tasks_dict_lookup _ _ Hnd HGin) as Hg.
    pose proof (tasks_dict_lookup _ _ Hnd HXin) as Hx.
    pose proof (tasks_dict_lookup _ _ Hnd HYin) as Hy.
    pose proof (expand_group_of_two fuel _ _ _ _ _ _ _ Hg Hx Hy
                  (no_actions_true _ HG) Hdep
                  (no_actions_false _ HX) (no_actions_false _ HY)) as Hexp.
    split.
    + eexists. split.
      * unfold doit_forget, bind. rewrite forget_each_expand.
        cbn [expand_each]. rewrite Hg, Hexp. cbn. reflexivity.
      * intros n. cbn.
        destruct (decide (n ∈ [name G; name X; name Y])) as [Hin|Hnin].
        -- rewrite bool_decide_eq_true_2 by done.
           rewrite !lookup_delete. repeat case_decide; try done.
           rewrite !elem_of_cons in Hin.
           destruct Hin as [?|[?|[?|[]%elem_of_nil]]]; congruence.
        -- rewrite bool_decide_eq_false_2 by done.
           rewrite !lookup_delete_ne; [done|..]; intros <-; apply Hnin;
             rewrite !elem_of_cons; tauto.
    + unfold doit_ignore, bind. rewrite ignore_each_expand.
      cbn [expand_each]. rewrite Hg, Hexp. cbn.
      unfold ignore_one. rewrite Hg, Hx, Hy. cbn.
      eexists. split; [reflexivity|]. split; [reflexivity|].
      intros n. cbn.
      assert (Hgx : name G <> name X).
      { intros Heq. rewrite Heq in Hg. rewrite Hx in Hg.
        injection Hg as ->. done. }
      assert (Hgy : name G <> name Y).
      { intros Heq. rewrite Heq in Hg. rewrite Hy in Hg.
        injection Hg as ->. done. }
      rewrite (lookup_insert_ne _ (name G) (name X)) by done.
      assert (Hy' :
        <[name X := set_ignored (db !! name X)]>
          (<[name G := set_ignored (db !! name G)]> db) !! name Y
        = if decide (name X = name Y) then Some (set_ignored (db !! name X))
          else db !! name Y).
      { rewrite lookup_insert. case_decide; [done|].
        by rewrite lookup_insert_ne. }
      rewrite Hy'. clear Hy'.
      destruct (decide (n ∈ [name G; name X; name Y])) as [Hin|Hnin].
      * rewrite bool_decide_eq_true_2 by done.
        rewrite !lookup_insert.
        destruct (decide (name Y = n)) as [<-|HnY].
        -- case_decide as Hxy; [|done]. rewrite set_ignored_idem.
           by rewrite Hxy.
        -- destruct (decide (name X = n)) as [<-|HnX]; [done|].
           destruct (decide (name G = n)) as [<-|HnG]; [done|].
           rewrite !elem_of_cons in Hin.
           destruct Hin as [?|[?|[?|[]%elem_of_nil]]]; congruence.
      * rewrite bool_decide_eq_false_2 by done.
        rewrite !lookup_insert_ne; [done|..]; intros <-; apply Hnin;
          rewrite !elem_of_cons; tauto.
  - intros L HLin HL Hfuel. destruct fuel as [|fuel]; [lia|].
    pose proof (tasks_dict_lookup _ _ Hnd HLin) as Hl.
    pose proof (expand_leaf fuel _ _ _ Hl (no_actions_false _ HL)) as Hexp.
    eexists. split.
    + unfold doit_forget, bind. rewrite forget_each_expand.
      cbn [expand_each]. rewrite Hl, Hexp. cbn. reflexivity.
    + intros n. cbn. rewrite lookup_delete.
      case_decide; case_bool_decide; subst; done.
Qed.

Lemma group_members_forgotten_and_ignored_witness :
  NoDup (name <$> demo_tasks) /\
  exists c,
    doit_forget 3 demo_db demo_tasks [] ["g"] = (Ok tt, c) /\
    records (dependencyManager c) !! "x" = None /\
    records (dependencyManager c) !! "z" = demo_db !! "z".
Proof.
  assert (Hnd : NoDup (name <$> demo_tasks)).
  { apply (bool_decide_unpack _). vm_compute. exact I. }
  split; [exact Hnd|].
  destruct (group_members_forgotten_and_ignored 3 demo_db demo_tasks [] Hnd)
    as [Hgroup _].
  destruct (Hgroup (mk_task "g" [] [] ["x"; "y"])
              (mk_task "x" [CmdAction "touch x.out"] ["x.in"] [])
              (mk_task "y" [CmdAction "touch y.out"] ["y.in"] []))
    as [(c & Hc & Hrec) _].
  - unfold demo_tasks. repeat constructor.
  - unfold demo_tasks. repeat constructor.
  - unfold demo_tasks. repeat constructor.
  - reflexivity.
  - reflexivity.
  - discriminate.
  - discriminate.
  - lia.
  - exists c. split; [exact Hc|]. split.
    + rewrite Hrec. reflexivity.
    + rewrite Hrec. reflexivity.
Defined.

(** ** Order of the removals *)

Lemma expand_pops_queue (fuel : nat) (tasks : gmap string Task)
    (group : list string) (popped : list string) :
  expand fuel tasks group = (popped, Ok tt) ->
  forall x, x ∈ group -> x ∈ popped.
Proof.
  revert group popped.
  induction fuel as [|fuel IH]; intros [|y group] popped Hexp x Hx;
    try (by apply elem_of_nil in Hx); try discriminate.
  simpl in Hexp. destruct (tasks !! y) as [t|]; [|discriminate].
  destruct (expand fuel tasks _) as [popped' r] eqn:Hrest.
  injection Hexp as <- ->.
  apply elem_of_cons in Hx as [->|Hx]; [by left|]. right.
  apply (IH _ _ Hrest). destruct (no_actions t); [|done].
  apply elem_of_app. by left.
Qed.

Lemma expand_members_after (fuel : nat) (tasks : gmap string Task)
    (group l1 : list string) (g : string) (l2 : list string) (G : Task) :
  expand fuel tasks group = (l1 ++ g :: l2, Ok tt) ->
  tasks !! g = Some G -> no_actions G = true ->
  forall m, m ∈ task_dep G -> m ∈ l2.
Proof.
  revert group l1.
  induction fuel as [|fuel IH]; intros [|y group] l1 Hexp Hg HG m Hm;
    try (by destruct l1); try discriminate.
  simpl in Hexp. destruct (tasks !! y) as [t|] eqn:Hy; [|discriminate].
  destruct (expand fuel tasks _) as [popped' r] eqn:Hrest.
  injection Hexp as Heq ->. destruct l1 as [|a l1]; simpl in Heq.
  - injection Heq as -> ->. rewrite Hg in Hy. injection Hy as <-.
    rewrite HG in Hrest. apply (expand_pops_queue _ _ _ _ Hrest).
    apply elem_of_app. by right.
  - injection Heq as -> ->. by apply (IH _ _ Hrest).
Qed.

Lemma expand_each_members_after (fuel : nat) (tasks : gmap string Task)
    (names l1 : list string) (g : string) (l2 : list string) (G : Task) :
  expand_each fuel tasks names = (l1 ++ g :: l2, Ok tt) ->
  tasks !! g = Some G -> no_actions G = true ->
  forall m, m ∈ task_dep G -> m ∈ l2.
Proof.
  revert l1. induction names as [|n rest IH]; intros l1 Hexp Hg HG m Hm.
  - by destruct l1.
  - simpl in Hexp. destruct (tasks !! n); [|discriminate].
    destruct (expand fuel tasks [n]) as [p [[]| |]] eqn:Hn;
      try discriminate.
    destruct (expand_each fuel tasks rest) as [p' r] eqn:Hrest.
    injection Hexp as Heq ->. symmetry in Heq.
    apply app_eq_inv in Heq as [(k & -> & Hk)|(k & Hk & Heq)].
    + apply (IH k); [by rewrite Hk | done..].
    + destruct k as [|a k]; simpl in Heq.
      * apply (IH []); [by rewrite <- Heq | done..].
      * injection Heq as <- ->. subst p. apply elem_of_app. left.
        by apply (expand_members_after _ _ _ _ _ _ _ Hn Hg HG).
Qed.

(** C3 (as amended): in a run of doit_forget that completes, the record
    of a group task is removed when the task is popped, before the records
    of its members: every removal of a group task is followed, later in
    the call log, by the removal of each of its task_dep members, which
    were appended to the end of the work list (breadth-first). *)
Theorem group_removed_before_its_members (fuel : nat)
    (db : gmap string DepRecord) (taskList : list Task)
    (outstream0 : list string) (names : list string) (c : Cmd)
    (l1 : list DepCall) (g : string) (l2 : list DepCall) (G : Task) :
  doit_forget fuel db taskList outstream0 names = (Ok tt, c) ->
  calls (dependencyManager c) = l1 ++ CallRemove g :: l2 ->
  tasks_dict taskList !! g = Some G -> actions G = [] ->
  forall m, m ∈ task_dep G -> CallRemove m ∈ l2.
Proof.
  intros Hrun Hcalls Hg HG m Hm. destruct names as [|n names].
  - injection Hrun as <-. simpl in Hcalls.
    destruct l1 as [|? [|? [|? ?]]]; discriminate.
  - rewrite doit_forget_names in Hrun by done. unfold bind in Hrun.
    rewrite forget_each_expand in Hrun.
    destruct (expand_each fuel (tasks_dict taskList) (n :: names))
      as [popped [[]| |]] eqn:Hexp; try discriminate.
    simpl in Hrun. injection Hrun as <-. simpl in Hcalls.
    rewrite fold_forget_calls in Hcalls. simpl in Hcalls.
    destruct l2 as [|z l2 _] using rev_ind.
    + apply app_inj_tail in Hcalls as [_ ?]. discriminate.
    + change (l1 ++ CallRemove g :: l2 ++ [z])
        with (l1 ++ (CallRemove g :: l2) ++ [z]) in Hcalls.
      rewrite app_assoc in Hcalls.
      apply app_inj_tail in Hcalls as [Hcalls _].
      apply fmap_app_inv in Hcalls as (t1 & t2 & -> & Ht2 & ->).
      destruct t2 as [|g' t2]; [discriminate|].
      simpl in Ht2. injection Ht2 as <- ->.
      apply elem_of_app. left. apply list_elem_of_fmap. exists m.
      split; [done|].
      by apply (expand_each_members_after _ _ _ _ _ _ _ Hexp Hg
                  (no_actions_true _ HG)).
Qed.

Lemma group_removed_before_its_members_witness :
  called_before (CallRemove "g") (CallRemove "y")
    (calls (dependencyManager
       (snd (doit_forget 5 demo_db demo_tasks [] ["g"])))).
Proof.
  exists [], [CallRemove "x"; CallRemove "y"; CallClose].
  split; [vm_compute; reflexivity|].
  apply (group_removed_before_its_members 5 demo_db demo_tasks [] ["g"]
           (snd (doit_forget 5 demo_db demo_tasks [] ["g"]))
           [] "g" [CallRemove "x"; CallRemove "y"; CallClose]
           (mk_task "g" [] [] ["x"; "y"])).
  - vm_compute. reflexivity.
  - vm_compute. reflexivity.
  - vm_compute. reflexivity.
  - reflexivity.
  - simpl. apply elem_of_cons. right. apply list_elem_of_singleton. done.
Defined.

(** C3 as stated fails: forgetting the group [g] removes the record of
    [g] first and those of its members [x] and [y] after it; the removal
    of a member is never followed by the removal of the group. *)
Lemma group_record_removed_first :
  let l := calls (dependencyManager
             (snd (doit_forget 5 demo_db demo_tasks [] ["g"]))) in
  l = [CallRemove "g"; CallRemove "x"; CallRemove "y"; CallClose] /\
  ~ called_before (CallRemove "x") (CallRemove "g") l /\
  ~ called_before (CallRemove "y") (CallRemove "g") l.
Proof.
  assert (Hl : calls (dependencyManager
             (snd (doit_forget 5 demo_db demo_tasks [] ["g"])))
           = [CallRemove "g"; CallRemove "x"; CallRemove "y"; CallClose])
    by (vm_compute; reflexivity).
  cbv zeta. rewrite Hl. split; [reflexivity|].
  split; intros (l1 & l2 & Heq & Hin);
    repeat (destruct l1 as [|? l1]; simpl in Heq;
            [try discriminate Heq | injection Heq as _ Heq]);
    try (by destruct l1);
    injection Heq as <-;
    repeat (apply elem_of_cons in Hin as [Hin|Hin]; [discriminate|]);
    by apply elem_of_nil in Hin.
Qed.

(** ** Termination of the work-list loops *)

Lemma cost_positive (tasks : gmap string Task) (x : string) (n : nat) :
  cost tasks x n -> 1 <= n.
Proof. inversion 1; lia. Qed.

Lemma cost_list_app (tasks : gmap string Task) (l1 l2 : list string)
    (n m : nat) :
  cost_list tasks l1 n -> cost_list tasks l2 m ->
  cost_list tasks (l1 ++ l2) (n + m).
Proof.
  revert n. induction l1 as [|x l1 IH]; intros n H1 H2.
  - inversion H1; subst. exact H2.
  - inversion H1 as [|? ? a b Hx Hl]; subst. simpl.
    rewrite <- Nat.add_assoc. constructor; [done|]. by apply IH.
Qed.

Lemma expand_within_cost (tasks : gmap string Task) (fuel : nat)
    (group : list string) (n : nat) :
  cost_list tasks group n -> n <= fuel ->
  snd (expand fuel tasks group) <> OutOfFuel.
Proof.
  revert group n. induction fuel as [|fuel IH]; intros [|x group] n Hc Hn;
    try done.
  - inversion Hc as [|? ? a b Hx Hl]; subst.
    apply cost_positive in Hx. lia.
  - inversion Hc as [|? ? a b Hx Hl]; subst. simpl.
    inversion Hx as [? Hnone|? t Hsome Hleaf|? t k Hsome Hgrp Hdeps]; subst.
    + by rewrite Hnone.
    + rewrite Hsome, Hleaf.
      destruct (expand fuel tasks group) as [popped r] eqn:Hrest. simpl.
      change r with (snd (popped, r)). rewrite <- Hrest.
      apply (IH _ b); [done | lia].
    + rewrite Hsome, Hgrp.
      destruct (expand fuel tasks (group ++ task_dep t))
        as [popped r] eqn:Hrest. simpl.
      change r with (snd (popped, r)). rewrite <- Hrest.
      apply (IH _ (b + k)); [by apply cost_list_app | lia].
Qed.

Lemma expand_fuel_mono (tasks : gmap string Task) (fuel fuel' : nat)
    (group : list string) :
  fuel <= fuel' -> snd (expand fuel tasks group) <> OutOfFuel ->
  expand fuel' tasks group = expand fuel tasks group.
Proof.
  revert fuel' group.
  induction fuel as [|fuel IH]; intros fuel' [|x group] Hle Hok;
    try (by destruct fuel'); try done.
  destruct fuel' as [|fuel']; [lia|]. simpl in *.
  destruct (tasks !! x) as [t|]; [|done].
  rewrite (IH fuel'); [done | lia |].
  by destruct (expand fuel tasks _).
Qed.

Lemma members_cost (tasks : gmap string Task) (l : list string) :
  (forall m, m ∈ l -> exists n, cost tasks m n) ->
  exists n, cost_list tasks l n.
Proof.
  induction l as [|x l IH]; intros H.
  - exists 0. constructor.
  - destruct (H x) as [n Hn]; [by left|].
    destruct IH as [m Hm]; [intros; apply H; by right|].
    exists (n + m). by constructor.
Qed.

Lemma sn_cost (tasks : gmap string Task) (x : string) :
  sn (group_edge tasks) x -> exists n, cost tasks x n.
Proof.
  induction 1 as [x _ IH].
  destruct (tasks !! x) as [t|] eqn:Hx.
  - destruct (no_actions t) eqn:Ht.
    + destruct (members_cost tasks (task_dep t)) as [n Hn].
      * intros m Hm. apply IH. exists t. done.
      * exists (S n). by eapply cost_group.
    + exists 1. by eapply cost_leaf.
  - exists 1. by apply cost_missing.
Qed.

Lemma acyclic_sn (tasks : gmap string Task) (x : string) :
  acyclic_from tasks x -> sn (group_edge tasks) x.
Proof.
  intros Hacyc.
  set (R := fun a b => rtc (group_edge tasks) x a /\ group_edge tasks a b).
  assert (Hsub : forall a b, tc R a b -> tc (group_edge tasks) a b).
  { intros a b. induction 1 as [a b [_ H]|a b c [_ H] _ IH].
    - by apply tc_once.
    - by eapply tc_l. }
  assert (Hsn : sn R x).
  { apply tc_finite_sn.
    - intros y Hy. apply (Hacyc y); [|by apply Hsub].
      inversion Hy as [? ? [Hr _]|? ? ? [Hr _] _]; done.
    - exists (mjoin (task_dep <$> (map_to_list tasks).*2)).
      intros y Hy.
      assert (Hlast : forall a b, tc R a b -> exists z, group_edge tasks z b).
      { intros a b Hab.
        induction Hab as [a b [_ H]|a b c _ _ IH]; [by exists a | done]. }
      destruct (Hlast _ _ Hy) as (z & t & Hz & _ & Hin).
      apply list_elem_of_join. exists (task_dep t). split; [done|].
      apply list_elem_of_fmap. exists t. split; [done|].
      apply list_elem_of_fmap. exists (z, t). split; [done|].
      by apply elem_of_map_to_list. }
  assert (Hall : forall y, sn R y -> rtc (group_edge tasks) x y ->
                           sn (group_edge tasks) y).
  { intros y Hy. induction Hy as [y _ IH]. intros Hreach.
    constructor. intros z Hz. apply IH.
    - split; done.
    - by eapply rtc_r. }
  by apply Hall.
Qed.

Lemma expand_each_stable (tasks : gmap string Task) (fuel0 fuel : nat)
    (names : list string) :
  (forall n, n ∈ names -> snd (expand fuel0 tasks [n]) <> OutOfFuel) ->
  fuel0 <= fuel ->
  expand_each fuel tasks names = expand_each fuel0 tasks names /\
  snd (expand_each fuel0 tasks names) <> OutOfFuel.
Proof.
  intros Hall Hle. induction names as [|n rest IH]; [done|].
  destruct IH as [IH1 IH2]; [intros; apply Hall; by right|].
  simpl. destruct (tasks !! n); [|done].
  rewrite (expand_fuel_mono tasks fuel0 fuel) by (try done; apply Hall; by left).
  pose proof (Hall n ltac:(by left)) as Hn.
  destruct (expand fuel0 tasks [n]) as [p [[]| |]]; try done.
  rewrite IH1. by destruct (expand_each fuel0 tasks rest).
Qed.

Lemma names_fuel (tasks : gmap string Task) (names : list string) :
  (forall n, n ∈ names -> acyclic_from tasks n) ->
  exists fuel0, forall n, n ∈ names ->
    snd (expand fuel0 tasks [n]) <> OutOfFuel.
Proof.
  induction names as [|x rest IH]; intros Hacyc.
  - exists 0. intros n Hn. by apply elem_of_nil in Hn.
  - destruct IH as [f1 Hf1]; [intros; apply Hacyc; by right|].
    destruct (sn_cost tasks x) as [k Hk].
    { apply acyclic_sn. apply Hacyc. by left. }
    assert (Hx : snd (expand k tasks [x]) <> OutOfFuel).
    { apply (expand_within_cost tasks k [x] (k + 0)); [|lia].
      constructor; [done | constructor]. }
    exists (f1 `max` k). intros n [->|Hn]%elem_of_cons.
    + rewrite (expand_fuel_mono tasks k); [done | lia | done].
    + rewrite (expand_fuel_mono tasks f1); [by apply Hf1 | lia | by apply Hf1].
Qed.

(** C9: when no cycle of group-task task_dep edges can be reached from
    the requested names, the work-list loops of doit_forget and
    doit_ignore terminate: some number of iterations is enough for both
    commands to end (by returning or by raising), and more iterations
    change nothing. *)
Theorem worklist_loops_terminate (db : gmap string DepRecord)
    (taskList : list Task) (outstream0 : list string)
    (names : list string) :
  (forall n, n ∈ names -> acyclic_from (tasks_dict taskList) n) ->
  exists fuel0,
    fst (doit_forget fuel0 db taskList outstream0 names) <> OutOfFuel /\
    ign_outcome (doit_ignore fuel0 db taskList outstream0 names)
      <> OutOfFuel /\
    forall fuel, fuel0 <= fuel ->
      doit_forget fuel db taskList outstream0 names
        = doit_forget fuel0 db taskList outstream0 names /\
      doit_ignore fuel db taskList outstream0 names
        = doit_ignore fuel0 db taskList outstream0 names.
Proof.
  intros Hacyc. destruct (names_fuel _ _ Hacyc) as [fuel0 Hfuel0].
  exists fuel0.
  destruct names as [|n names]; [by repeat split|].
  pose proof (expand_each_stable _ fuel0 fuel0 _ Hfuel0 (le_n _)) as [_ Hok].
  split; [|split].
  - rewrite doit_forget_names by done. unfold bind.
    rewrite forget_each_expand.
    by destruct (expand_each fuel0 (tasks_dict taskList) (n :: names))
      as [p [[]| |]].
  - rewrite doit_ignore_names by done. unfold bind.
    rewrite ignore_each_expand.
    by destruct (expand_each fuel0 (tasks_dict taskList) (n :: names))
      as [p [[]| |]].
  - intros fuel Hle.
    pose proof (expand_each_stable _ fuel0 fuel _ Hfuel0 Hle) as [Heq _].
    split.
    + rewrite !doit_forget_names by done. unfold bind.
      rewrite !forget_each_expand. by rewrite Heq.
    + rewrite !doit_ignore_names by done. unfold bind.
      rewrite !ignore_each_expand. by rewrite Heq.
Qed.

Lemma ranked_acyclic (tasks : gmap string Task) (rank : string -> nat) :
  (forall a b, group_edge tasks a b -> rank b < rank a) ->
  forall x, acyclic_from tasks x.
Proof.
  intros Hrank x y _ Hcyc.
  assert (Hdec : forall a b, tc (group_edge tasks) a b -> rank b < rank a).
  { intros a b Hab. induction Hab as [a b H|a b c H _ IH].
    - by apply Hrank.
    - apply Hrank in H. lia. }
  apply Hdec in Hcyc. lia.
Qed.

Lemma demo_tasks_acyclic (x : string) :
  acyclic_from (tasks_dict demo_tasks) x.
Proof.
  apply (ranked_acyclic _ (fun s => if bool_decide (s = "g") then 1 else 0)).
  intros a b (t & Ha & Hna & Hb).
  apply tasks_dict_name in Ha as [<- Hin]. unfold demo_tasks in Hin.
  rewrite !elem_of_cons in Hin.
  destruct Hin as [->|[->|[->|[]%elem_of_nil]]]; try discriminate Hna.
  simpl in Hb. rewrite !elem_of_cons in Hb.
  destruct Hb as [->|[->|[]%elem_of_nil]]; vm_compute; lia.
Qed.

Lemma worklist_loops_terminate_witness :
  exists fuel0,
    fst (doit_forget fuel0 demo_db demo_tasks [] ["g"; "x"]) <> OutOfFuel.
Proof.
  destruct (worklist_loops_terminate demo_db demo_tasks [] ["g"; "x"])
    as (fuel0 & Hforget & _).
  - intros n _. apply demo_tasks_acyclic.
  - exists fuel0. exact Hforget.
Defined.

Lemma cycle_successor (tasks : gmap string Task) (x : string) :
  reaches_cycle tasks x ->
  exists m, group_edge tasks x m /\ reaches_cycle tasks m.
Proof.
  intros (y & Hxy & Hyy). destruct Hxy as [x|x m y Hxm Hmy].
  - inversion Hyy as [? ? H|? m ? H Hmx]; subst.
    + exists x. split; [done|]. exists x. split; [done|]. by apply tc_once.
    + exists m. split; [done|]. exists x. split; [by apply tc_rtc|].
      by eapply tc_l.
  - exists m. split; [done|]. by exists y.
Qed.

(** The loops keep no record of the names already popped: where a cycle
    of group edges can be reached and every name met is a task, the loop
    never empties its work list. *)
Lemma reachable_cycle_diverges (tasks : gmap string Task) (fuel : nat)
    (group : list string) :
  (forall x, x ∈ group -> members_resolve tasks x) ->
  (exists x, x ∈ group /\ reaches_cycle tasks x) ->
  snd (expand fuel tasks group) = OutOfFuel.
Proof.
  revert group. induction fuel as [|fuel IH]; intros [|x group] Hres Hcyc.
  - destruct Hcyc as (w & Hw & _). by apply elem_of_nil in Hw.
  - done.
  - destruct Hcyc as (w & Hw & _). by apply elem_of_nil in Hw.
  - simpl. destruct (Hres x ltac:(by left) x ltac:(done)) as [t Hx].
    rewrite Hx.
    match goal with
    | |- context [expand fuel tasks ?q] =>
        assert (Hq : snd (expand fuel tasks q) = OutOfFuel);
        [|by destruct (expand fuel tasks q)]
    end.
    apply IH.
    + intros z Hz. assert (z ∈ group \/ (no_actions t = true /\ z ∈ task_dep t))
        as [Hin|[Hna Hin]].
      { destruct (no_actions t); [|by left].
        apply elem_of_app in Hz as [?|?]; [by left | by right]. }
      * apply Hres. by right.
      * intros y Hy. apply (Hres x ltac:(by left)).
        eapply rtc_l; [|done]. by exists t.
    + destruct Hcyc as (w & Hw & Hcw).
      apply elem_of_cons in Hw as [->|Hw].
      * apply cycle_successor in Hcw as (m & (t' & Hx' & Hna & Hm) & Hcm).
        rewrite Hx in Hx'. injection Hx' as <-. rewrite Hna.
        exists m. split; [|done]. apply elem_of_app. by right.
      * exists w. split; [|done]. destruct (no_actions t); [|done].
        apply elem_of_app. by left.
Qed.

Lemma worklist_loops_diverge_on_cycle (fuel : nat)
    (db : gmap string DepRecord) (taskList : list Task)
    (outstream0 : list string) (n : string) (rest : list string) :
  members_resolve (tasks_dict taskList) n ->
  reaches_cycle (tasks_dict taskList) n ->
  fst (doit_forget fuel db taskList outstream0 (n :: rest)) = OutOfFuel /\
  ign_outcome (doit_ignore fuel db taskList outstream0 (n :: rest))
    = OutOfFuel.
Proof.
  intros Hres Hcyc.
  assert (Hexp : snd (expand fuel (tasks_dict taskList) [n]) = OutOfFuel).
  { apply reachable_cycle_diverges.
    - by intros x ->%list_elem_of_singleton.
    - exists n. split; [by left | done]. }
  destruct (Hres n ltac:(done)) as [t Hn].
  assert (Heach : snd (expand_each fuel (tasks_dict taskList) (n :: rest))
                  = OutOfFuel).
  { simpl. rewrite Hn.
    by destruct (expand fuel (tasks_dict taskList) [n]) as [p [[]| |]]. }
  split.
  - rewrite doit_forget_names by done. unfold bind.
    rewrite forget_each_expand.
    by destruct (expand_each fuel (tasks_dict taskList) (n :: rest))
      as [p [[]| |]].
  - rewrite doit_ignore_names by done. unfold bind.
    rewrite ignore_each_expand.
    by destruct (expand_each fuel (tasks_dict taskList) (n :: rest))
      as [p [[]| |]].
Qed.

(** ** Listing: subtasks *)

Lemma for_each_filter {S A} (p : A -> bool) (body : A -> M S unit)
    (l : list A) (s : S) :
  for_each l (fun x => if p x then body x else ret tt) s =
  for_each (filter (fun x => p x) l) body s.
Proof.
  revert s. induction l as [|x l IH]; intros s; [reflexivity|].
  rewrite filter_cons. simpl. destruct (p x) eqn:Hp.
  - rewrite decide_True by exact I. simpl. unfold bind.
    destruct (body x s) as [[[]| |] s']; try reflexivity. apply IH.
  - rewrite decide_False by exact (fun H => H). unfold bind, ret. apply IH.
Qed.

Lemma for_each_ext {S A} (f g : A -> M S unit) (l : list A) (s : S) :
  (forall x s, f x s = g x s) -> for_each l f s = for_each l g s.
Proof.
  intros Hfg. revert s. induction l as [|x l IH]; intros s; [reflexivity|].
  simpl. unfold bind. rewrite Hfg.
  destruct (g x s) as [[[]| |] s']; try reflexivity. apply IH.
Qed.

Lemma get_status_unfold (fuel : nat) (graph : gmap string Task)
    (fs : gmap string Fingerprint) (d : Dependency) (t : Task) :
  get_status fuel graph fs d t =
  match records d !! name t with
  | None => Some st_run
  | Some r =>
      if ignored r then Some st_ignore
      else if negb (forallb (fingerprint_matches fs r) (file_dep t))
      then Some st_run
      else
        match task_dep t, fuel with
        | [], _ => Some st_up_to_date
        | _ :: _, 0 => None
        | deps, S fuel =>
            match all_up_to_date (get_status fuel graph fs d) graph deps with
            | None => None
            | Some true => Some st_up_to_date
            | Some false => Some st_run
            end
        end
  end.
Proof. by destruct fuel. Qed.

Lemma all_up_to_date_reflag (flags : Task -> bool)
    (status status' : Task -> option Status) (graph : gmap string Task)
    (deps : list string) :
  (forall t, status' (reflag flags t) = status t) ->
  all_up_to_date status' (reflag flags <$> graph) deps =
  all_up_to_date status graph deps.
Proof.
  intros Hst. induction deps as [|n deps IH]; [reflexivity|].
  simpl. rewrite lookup_fmap. destruct (graph !! n) as [td|]; [|reflexivity].
  simpl. rewrite Hst. destruct (status td) as [[]|]; try reflexivity.
  apply IH.
Qed.

Lemma get_status_reflag (flags : Task -> bool) (fuel : nat)
    (graph : gmap string Task) (fs : gmap string Fingerprint)
    (d : Dependency) (t : Task) :
  get_status fuel (reflag flags <$> graph) fs d (reflag flags t) =
  get_status fuel graph fs d t.
Proof.
  revert t. induction fuel as [|fuel IH]; intros t;
    rewrite !get_status_unfold; cbn [reflag name file_dep task_dep];
    [reflexivity|].
  destruct (records d !! name t) as [r|]; [|reflexivity].
  destruct (ignored r); [reflexivity|].
  destruct (negb _); [reflexivity|].
  destruct (task_dep t) as [|n deps]; [reflexivity|]. cbv beta iota.
  by rewrite (all_up_to_date_reflag flags (get_status fuel graph fs d)).
Qed.

Lemma task_line_frame (print_doc print_status : bool)
    (tasks : gmap string Task) (dependencyManager : Dependency)
    (fs : gmap string Fingerprint) (status_fuel : nat) (task : Task)
    (out : list string) :
  task_line print_doc print_status tasks dependencyManager fs status_fuel
    task out =
  (fst (task_line print_doc print_status tasks dependencyManager fs
          status_fuel task []), out).
Proof.
  unfold task_line, bind, query, ret. destruct print_status; [|done].
  by destruct (get_status _ _ _ _ _).
Qed.

Lemma for_each_frame {A} (f : A -> M (list string) unit) (l : list A)
    (out : list string) :
  (forall x o, x ∈ l -> f x o = (fst (f x []), o ++ snd (f x []))) ->
  for_each l f out =
  (fst (for_each l f []), out ++ snd (for_each l f [])).
Proof.
  revert out. induction l as [|x l IH]; intros out Hf; simpl.
  - by rewrite app_nil_r.
  - unfold bind. rewrite (Hf x out) by (by left).
    destruct (f x []) as [[[]| |] lines] eqn:Hx; cbn [fst snd]; try done.
    rewrite (IH (out ++ lines)) by (intros; apply Hf; by right).
    rewrite (IH lines) by (intros; apply Hf; by right).
    cbn [fst snd]. by rewrite app_assoc.
Qed.

Lemma list_print_task_unfold (print_subtasks print_doc print_status : bool)
    (tasks : gmap string Task) (dependencyManager : Dependency)
    (fs : gmap string Fingerprint) (status_fuel depth : nat) (task : Task)
    (out : list string) :
  _list_print_task print_subtasks print_doc print_status tasks
    dependencyManager fs status_fuel (S depth) task out =
  match fst (task_line print_doc print_status tasks dependencyManager fs
               status_fuel task []) with
  | Ok line =>
      if print_subtasks then
        for_each (task_dep task) (fun subt =>
          if startswith subt (name task) then
            let* t := getitem tasks subt in
            _list_print_task print_subtasks print_doc print_status tasks
              dependencyManager fs status_fuel depth t
          else ret tt) (out ++ [line])
      else (Ok tt, out ++ [line])
  | Raise e => (Raise e, out)
  | OutOfFuel => (OutOfFuel, out)
  end.
Proof.
  cbn [_list_print_task]. unfold bind at 1. rewrite task_line_frame.
  destruct (fst (task_line _ _ _ _ _ _ task [])) as [line| |]; [|done..].
  unfold bind, swrite, modify. by destruct print_subtasks.
Qed.

Lemma list_print_task_frame (print_subtasks print_doc print_status : bool)
    (tasks : gmap string Task) (dependencyManager : Dependency)
    (fs : gmap string Fingerprint) (status_fuel depth : nat) (task : Task)
    (out : list string) :
  _list_print_task print_subtasks print_doc print_status tasks
    dependencyManager fs status_fuel depth task out =
  (fst (_list_print_task print_subtasks print_doc print_status tasks
          dependencyManager fs status_fuel depth task []),
   out ++
   snd (_list_print_task print_subtasks print_doc print_status tasks
          dependencyManager fs status_fuel depth task [])).
Proof.
  revert task out. induction depth as [|depth IH]; intros task out.
  - simpl. by rewrite app_nil_r.
  - rewrite !list_print_task_unfold.
    destruct (fst (task_line _ _ _ _ _ _ task [])) as [line| |];
      cbn [fst snd]; try (by rewrite app_nil_r).
    destruct print_subtasks; [|done].
    match goal with
    | |- for_each _ ?body _ = _ =>
        assert (Hbody : forall x o, x ∈ task_dep task ->
                  body x o = (fst (body x []), o ++ snd (body x [])))
    end.
    { intros x o _. cbn beta.
      destruct (startswith x (name task));
        [|unfold ret; simpl; by rewrite app_nil_r].
      unfold bind, getitem. destruct (tasks !! x) as [t|].
      - unfold ret. apply IH.
      - unfold raise. simpl. by rewrite app_nil_r. }
    rewrite (for_each_frame _ _ (out ++ [line]) Hbody).
    rewrite (for_each_frame _ _ ([] ++ [line]) Hbody).
    cbn [fst snd app]. by rewrite <- app_assoc.
Qed.

Lemma for_each_resolved {A} (d : gmap string A)
    (f : A -> M (list string) unit) (names : list string) (xs : list A)
    (out : list string) :
  Forall2 (fun k x => d !! k = Some x) names xs ->
  (forall x o, f x o = (fst (f x []), o ++ snd (f x []))) ->
  (forall x, x ∈ xs -> fst (f x []) = Ok tt) ->
  for_each names (fun k => let* x := getitem d k in f x) out =
  (Ok tt, out ++ concat ((fun x => snd (f x [])) <$> xs)).
Proof.
  intros Hres Hframe. revert out.
  induction Hres as [|k x names xs Hk _ IH]; intros out Hok; simpl.
  - by rewrite app_nil_r.
  - unfold bind at 1 2, getitem at 1. rewrite Hk. unfold ret at 1.
    rewrite Hframe, (Hok x) by (by left).
    rewrite IH by (intros; apply Hok; by right).
    by rewrite <- app_assoc.
Qed.

(** C10: with print_subtasks set, what _list_print_task writes for a task
    T is the line of T followed by the listings, one after the other and in
    the order of T.task_dep, of exactly those entries of T.task_dep whose
    name starts with T.name, each listed as a task of its own one level
    deeper; nothing is written for the other entries. The entries chosen
    are taken to name tasks whose listings end. Which entries are chosen
    rests on the test of the name alone: the is_subtask flags of the tasks
    play no part. This is what doit_list writes when T is the task named
    on the command line and is not left out as private. *)
Theorem subtasks_listed_by_name_prefix (print_doc print_status : bool)
    (tasks : gmap string Task) (dependencyManager : Dependency)
    (fs : gmap string Fingerprint) (status_fuel depth : nat) (T : Task)
    (out : list string) (line : string) (subs : list Task) :
  task_line print_doc print_status tasks dependencyManager fs status_fuel
    T out = (Ok line, out) ->
  Forall2 (fun subt t => tasks !! subt = Some t)
    (filter (fun subt => startswith subt (name T)) (task_dep T)) subs ->
  (forall t, t ∈ subs ->
     fst (_list_print_task true print_doc print_status tasks
            dependencyManager fs status_fuel depth t []) = Ok tt) ->
  _list_print_task true print_doc print_status tasks dependencyManager fs
    status_fuel (S depth) T out =
  (Ok tt,
   out ++ line ::
   concat ((fun t =>
              snd (_list_print_task true print_doc print_status tasks
                     dependencyManager fs status_fuel depth t [])) <$> subs))
  /\
  (forall flags : Task -> bool,
     _list_print_task true print_doc print_status (reflag flags <$> tasks)
       dependencyManager fs status_fuel (S depth) (reflag flags T) out =
     _list_print_task true print_doc print_status tasks dependencyManager fs
       status_fuel (S depth) T out) /\
  forall (task_list : list Task) (dependencyFile : gmap string DepRecord)
         (print_private : bool),
    tasks = tasks_dict task_list ->
    dependencyManager = Dependency_open dependencyFile ->
    tasks !! name T = Some T ->
    negb print_private && startswith (name T) "_" = false ->
    doit_list (S depth) status_fuel fs dependencyFile task_list out
      [name T] true print_doc print_status print_private =
    (Ok 0%Z,
     out ++ line ::
     concat ((fun t =>
                snd (_list_print_task true print_doc print_status tasks
                       dependencyManager fs status_fuel depth t [])) <$>
               subs)).
Proof.
  intros Hline Hsubs Hok.
  assert (Hlisting :
    _list_print_task true print_doc print_status tasks dependencyManager fs
      status_fuel (S depth) T out =
    (Ok tt,
     out ++ line ::
     concat ((fun t =>
                snd (_list_print_task true print_doc print_status tasks
                       dependencyManager fs status_fuel depth t [])) <$>
               subs))).
  { cbn [_list_print_task]. unfold bind at 1. rewrite Hline.
    unfold bind at 1. unfold swrite, modify.
    rewrite for_each_filter.
    rewrite (for_each_resolved tasks
               (_list_print_task true print_doc print_status tasks
                  dependencyManager fs status_fuel depth)
               _ subs _ Hsubs); [|intros; apply list_print_task_frame|done].
    by rewrite <- app_assoc. }
  split; [exact Hlisting|]. split.
  2:{ intros task_list dependencyFile print_private Htasks Hdm HT Hpriv.
      subst tasks dependencyManager. unfold doit_list.
      cbn [map_m]. unfold bind at 1. unfold bind at 1. unfold getitem at 1.
      rewrite HT. unfold ret at 1. unfold bind at 1. unfold ret at 1.
      unfold ret at 1. cbn [for_each]. unfold bind at 1. unfold bind at 1.
      rewrite Hpriv. rewrite bool_decide_eq_false_2 by done. cbn [andb].
      rewrite Hlisting. reflexivity. }
  - clear Hline Hsubs Hok Hlisting line subs. intros flags. revert T out.
    generalize (S depth) as k.
    induction k as [|k IH]; intros T out; [reflexivity|].
    cbn [_list_print_task]. unfold bind.
    assert (Hline :
      task_line print_doc print_status (reflag flags <$> tasks)
        dependencyManager fs status_fuel (reflag flags T) out =
      task_line print_doc print_status tasks dependencyManager fs
        status_fuel T out).
    { unfold task_line. simpl. by rewrite get_status_reflag. }
    rewrite Hline.
    destruct (task_line _ _ _ _ _ _ T out) as [[line| |] out1];
      try reflexivity.
    destruct (swrite line out1) as [[[]| |] out2]; try reflexivity.
    simpl. apply for_each_ext. intros subt s.
    destruct (startswith subt (name T)); [|reflexivity].
    unfold bind, getitem. rewrite lookup_fmap.
    destruct (tasks !! subt) as [t|]; [|reflexivity]. simpl. apply IH.
Qed.

Lemma subtasks_listed_by_name_prefix_witness :
  _list_print_task true false false (tasks_dict demo_listing)
    (Dependency_open ∅) ∅ 0 2
    {| name := "build"; actions := []; file_dep := [];
       task_dep := ["build:a"; "lint"; "builder"];
       doc := "compile"; is_subtask := false |} [] =
  (Ok tt, ["build" +:+ nl; "build:a" +:+ nl; "builder" +:+ nl]) /\
  doit_list 2 0 ∅ ∅ demo_listing [] ["build"] true false false false =
  (Ok 0%Z, ["build" +:+ nl; "build:a" +:+ nl; "builder" +:+ nl]).
Proof.
  destruct (subtasks_listed_by_name_prefix false false
              (tasks_dict demo_listing) (Dependency_open ∅) ∅ 0 1
              {| name := "build"; actions := []; file_dep := [];
                 task_dep := ["build:a"; "lint"; "builder"];
                 doc := "compile"; is_subtask := false |} []
              ("build" +:+ nl)
              [ {| name := "build:a"; actions := [CmdAction "cc a.c"];
                   file_dep := ["a.c"]; task_dep := [];
                   doc := EmptyString; is_subtask := true |};
                mk_task "builder" [CmdAction "make builder"] [] [] ])
    as (Hlisting & _ & Hdoit).
  - reflexivity.
  - vm_compute. repeat constructor.
  - intros t Ht. apply elem_of_cons in Ht as [->|Ht];
      [|apply list_elem_of_singleton in Ht as ->]; vm_compute; reflexivity.
  - split.
    + rewrite Hlisting. vm_compute. reflexivity.
    + change (name {| name := "build"; actions := []; file_dep := [];
                      task_dep := ["build:a"; "lint"; "builder"];
                      doc := "compile"; is_subtask := false |})
        with "build" in Hdoit.
      rewrite (Hdoit demo_listing ∅ false);
        [vm_compute; reflexivity | reflexivity | reflexivity
        | vm_compute; reflexivity | reflexivity].
Defined.

(** ** Listing: status letters *)

Lemma string_app_assoc (s1 s2 s3 : string) :
  (s1 +:+ s2) +:+ s3 = s1 +:+ s2 +:+ s3.
Proof.
  induction s1 as [|a s1 IH]; [reflexivity|].
  change (String a ((s1 +:+ s2) +:+ s3) = String a (s1 +:+ s2 +:+ s3)).
  by rewrite IH.
Qed.

Lemma task_line_status (print_doc : bool) (tasks : gmap string Task)
    (dependencyManager : Dependency) (fs : gmap string Fingerprint)
    (status_fuel : nat) (task : Task) (st : Status) (out : list string) :
  get_status status_fuel tasks fs dependencyManager task = Some st ->
  task_line print_doc true tasks dependencyManager fs status_fuel task out =
  (Ok (status_map st +:+ " " +:+ task_text print_doc task +:+ nl), out).
Proof.
  intros Hst. unfold task_line, bind, query, ret, task_text. rewrite Hst.
  by rewrite !string_app_assoc.
Qed.

Lemma task_line_state (print_doc print_status : bool)
    (tasks : gmap string Task) (dependencyManager : Dependency)
    (fs : gmap string Fingerprint) (status_fuel : nat) (task : Task)
    (out : list string) :
  snd (task_line print_doc print_status tasks dependencyManager fs
         status_fuel task out) = out.
Proof.
  unfold task_line, bind, query, ret. destruct print_status; [|done].
  by destruct (get_status _ _ _ _ _).
Qed.

Lemma map_m_getitem_state {S A} (d : gmap string A) (l : list string)
    (s : S) :
  snd (map_m (getitem d) l s) = s.
Proof.
  induction l as [|x l IH]; [done|]. simpl. unfold bind, getitem at 1.
  destruct (d !! x); [|done]. unfold ret at 1.
  by destruct (map_m (getitem d) l s) as [[ys| |] s'].
Qed.

Lemma forallb_all {A} (f : A -> bool) (l : list A) :
  (forall x, x ∈ l -> f x = true) -> forallb f l = true.
Proof.
  induction l as [|x l IH]; intros H; [done|]. simpl.
  rewrite H by (by left). apply IH. intros y Hy. apply H. by right.
Qed.

Lemma get_status_no_record (fuel : nat) (graph : gmap string Task)
    (fs : gmap string Fingerprint) (d : Dependency) (t : Task) :
  records d !! name t = None -> get_status fuel graph fs d t = Some st_run.
Proof. intros H. rewrite get_status_unfold. by rewrite H. Qed.

Lemma get_status_ignored (fuel : nat) (graph : gmap string Task)
    (fs : gmap string Fingerprint) (d : Dependency) (t : Task) :
  get_status fuel graph fs (dep_ignore t d) t = Some st_ignore.
Proof.
  rewrite get_status_unfold. simpl. rewrite lookup_insert_eq.
  by destruct (records d !! name t).
Qed.

Lemma get_status_committed (k : nat) (graph : gmap string Task)
    (fs fps : gmap string Fingerprint) (d : Dependency) (t : Task) :
  (forall r, records d !! name t = Some r -> ignored r = false) ->
  (forall f, f ∈ file_dep t ->
     exists fp, fs !! f = Some fp /\ fps !! f = Some fp) ->
  (forall n, n ∈ task_dep t ->
     exists td, graph !! n = Some td /\
       get_status k graph fs (dep_commit t fps d) td = Some st_up_to_date) ->
  get_status (S k) graph fs (dep_commit t fps d) t = Some st_up_to_date.
Proof.
  intros Hign Hfiles Hdeps. rewrite get_status_unfold.
  cbn [dep_commit records]. rewrite lookup_insert_eq. cbn [ignored].
  assert (Hflag : match records d !! name t with
                  | Some r => ignored r
                  | None => false
                  end = false).
  { destruct (records d !! name t) as [r|] eqn:Hr; [by apply Hign | done]. }
  rewrite Hflag. rewrite forallb_all.
  2:{ intros f Hf. destruct (Hfiles f Hf) as (fp & Hfs & Hfp).
      unfold fingerprint_matches. cbn [fingerprints]. rewrite Hfs, Hfp.
      by apply bool_decide_eq_true_2. }
  cbn [negb]. destruct (task_dep t) as [|n deps] eqn:Htd; [done|].
  cbv beta iota.
  assert (Hall : all_up_to_date
            (get_status k graph fs (dep_commit t fps d)) graph (n :: deps)
          = Some true).
  { clear Htd. induction (n :: deps) as [|m l IH]; [done|]. simpl.
    destruct (Hdeps m) as (td & Hm & Hst); [by left|].
    rewrite Hm, Hst. apply IH. intros; apply Hdeps. by right. }
  by rewrite Hall.
Qed.

Lemma collect_body_listed {A} (body : A -> list Task * res unit)
    (x : A) (l : list A) (t : Task) :
  t ∈ fst (body x) -> t ∈ fst (collect body (x :: l)).
Proof.
  intros Ht. simpl. destruct (body x) as [ts [[]| |]]; try done.
  destruct (collect body l) as [ts' r]. simpl in *.
  apply elem_of_app. by left.
Qed.

Lemma collect_rest_listed {A} (body : A -> list Task * res unit)
    (x : A) (l : list A) (ts : list Task) (t : Task) :
  body x = (ts, Ok tt) ->
  t ∈ fst (collect body l) -> t ∈ fst (collect body (x :: l)).
Proof.
  intros Hx Ht. simpl. rewrite Hx.
  destruct (collect body l) as [ts' r]. simpl in *.
  apply elem_of_app. by right.
Qed.

Lemma for_each_collect {A} (render : Task -> string) (P : Task -> Prop)
    (f : A -> M (list string) unit) (body : A -> list Task * res unit)
    (l : list A) (out : list string) :
  (forall x o, x ∈ l -> (forall t, t ∈ fst (body x) -> P t) ->
     f x o = (snd (body x), o ++ (render <$> fst (body x)))) ->
  (forall t, t ∈ fst (collect body l) -> P t) ->
  for_each l f out =
  (snd (collect body l), out ++ (render <$> fst (collect body l))).
Proof.
  revert out. induction l as [|x l IH]; intros out Hf HP.
  - simpl. by rewrite app_nil_r.
  - assert (Hx : f x out = (snd (body x), out ++ (render <$> fst (body x)))).
    { apply Hf; [by left|]. intros t Ht. apply HP.
      by apply collect_body_listed. }
    cbn [for_each]. unfold bind. rewrite Hx.
    destruct (body x) as [ts [[]| |]] eqn:Hbody; cbn [fst snd];
      try (simpl; by rewrite Hbody).
    rewrite IH.
    + simpl. rewrite Hbody. destruct (collect body l) as [ts' r].
      cbn [fst snd]. by rewrite fmap_app, app_assoc.
    + intros y o Hy. apply Hf. by right.
    + intros t Ht. apply HP. by apply (collect_rest_listed _ _ _ ts).
Qed.

Lemma listed_under_unfold (print_subtasks : bool) (tasks : gmap string Task)
    (depth : nat) (task : Task) :
  listed_under print_subtasks tasks (S depth) task =
  (task ::
   fst (if print_subtasks then
          collect (fun subt =>
            if startswith subt (name task) then
              match tasks !! subt with
              | Some t => listed_under print_subtasks tasks depth t
              | None => ([], Raise (KeyError subt))
              end
            else ([], Ok tt)) (task_dep task)
        else ([], Ok tt)),
   snd (if print_subtasks then
          collect (fun subt =>
            if startswith subt (name task) then
              match tasks !! subt with
              | Some t => listed_under print_subtasks tasks depth t
              | None => ([], Raise (KeyError subt))
              end
            else ([], Ok tt)) (task_dep task)
        else ([], Ok tt))).
Proof.
  cbn [listed_under]. destruct print_subtasks; [|done].
  by destruct (collect _ (task_dep task)).
Qed.

Lemma list_print_task_listed (print_subtasks print_doc print_status : bool)
    (tasks : gmap string Task) (dependencyManager : Dependency)
    (fs : gmap string Fingerprint) (status_fuel : nat)
    (render : Task -> string) (depth : nat) (task : Task)
    (out : list string) :
  (forall t, t ∈ fst (listed_under print_subtasks tasks depth task) ->
     fst (task_line print_doc print_status tasks dependencyManager fs
            status_fuel t []) = Ok (render t)) ->
  _list_print_task print_subtasks print_doc print_status tasks
    dependencyManager fs status_fuel depth task out =
  (snd (listed_under print_subtasks tasks depth task),
   out ++ (render <$> fst (listed_under print_subtasks tasks depth task))).
Proof.
  revert task out. induction depth as [|depth IH]; intros task out Hline.
  - simpl. by rewrite app_nil_r.
  - rewrite list_print_task_unfold. rewrite listed_under_unfold in Hline |- *.
    cbn [fst snd] in *. rewrite (Hline task) by (by left).
    destruct print_subtasks.
    + erewrite (for_each_collect render
        (fun t => fst (task_line print_doc print_status tasks
                         dependencyManager fs status_fuel t [])
                  = Ok (render t))).
      * cbn [fmap list_fmap]. f_equal. by rewrite <- app_assoc.
      * intros subt o _. cbn beta.
        destruct (startswith subt (name task));
          [|intros _; unfold ret; simpl; by rewrite app_nil_r].
        unfold bind, getitem. destruct (tasks !! subt) as [t|]; intros HP.
        -- unfold ret. by apply IH.
        -- unfold raise. simpl. by rewrite app_nil_r.
      * intros t Ht. apply Hline. by right.
    + done.
Qed.

Lemma map_m_getitem_pure {S A} (d : gmap string A) (l : list string)
    (s : S) :
  map_m (getitem d) l s = (fst (map_m (S := unit) (getitem d) l tt), s).
Proof.
  induction l as [|k l IH]; [done|]. simpl. unfold bind, getitem at 1 3.
  destruct (d !! k) as [x|]; [|done]. unfold ret at 1 3. rewrite IH.
  by destruct (map_m (getitem d) l tt) as [[ys| |] []].
Qed.

Lemma doit_list_listed (render : Task -> string)
    (depth status_fuel : nat) (fs : gmap string Fingerprint)
    (dependencyFile : gmap string DepRecord) (task_list : list Task)
    (outstream0 : list string) (filter_tasks : list string)
    (print_subtasks print_doc print_status print_private : bool) :
  (forall t,
     t ∈ fst (listed depth task_list filter_tasks print_subtasks
                print_private) ->
     fst (task_line print_doc print_status (tasks_dict task_list)
            (Dependency_open dependencyFile) fs status_fuel t [])
     = Ok (render t)) ->
  doit_list depth status_fuel fs dependencyFile task_list outstream0
    filter_tasks print_subtasks print_doc print_status print_private
  = (snd (listed depth task_list filter_tasks print_subtasks print_private),
     outstream0 ++
     (render <$>
        fst (listed depth task_list filter_tasks print_subtasks
               print_private))).
Proof.
  unfold doit_list, listed. intros Hline. unfold bind at 1.
  assert (Hpt :
    match filter_tasks with
    | [] => ret task_list
    | _ :: _ => map_m (getitem (tasks_dict task_list)) filter_tasks
    end outstream0 =
    (match filter_tasks with
     | [] => Ok task_list
     | _ :: _ =>
         fst (map_m (S := unit) (getitem (tasks_dict task_list))
                filter_tasks tt)
     end, outstream0)).
  { destruct filter_tasks; [done|]. apply map_m_getitem_pure. }
  rewrite Hpt. clear Hpt.
  destruct (match filter_tasks with
            | [] => Ok task_list
            | _ :: _ =>
                fst (map_m (S := unit) (getitem (tasks_dict task_list))
                       filter_tasks tt)
            end) as [pt| |]; try (simpl; by rewrite app_nil_r).
  unfold bind.
  set (body := fun task : Task =>
         if bool_decide (filter_tasks = []) && is_subtask task
         then ([], Ok tt)
         else if negb print_private && startswith (name task) "_"
         then ([], Ok tt)
         else listed_under print_subtasks (tasks_dict task_list) depth task)
    in *.
  rewrite (for_each_collect render
    (fun t => fst (task_line print_doc print_status (tasks_dict task_list)
                     (Dependency_open dependencyFile) fs status_fuel t [])
              = Ok (render t)) _ body).
  - by destruct (collect body pt) as [ts [[]| |]].
  - intros task o _. unfold body.
    destruct (bool_decide (filter_tasks = []) && is_subtask task);
      [intros _; unfold ret; simpl; by rewrite app_nil_r|].
    destruct (negb print_private && startswith (name task) "_");
      [intros _; unfold ret; simpl; by rewrite app_nil_r|].
    intros HP. by apply list_print_task_listed.
  - intros t Ht. apply Hline. by destruct (collect body pt) as [ts [[]| |]].
Qed.

(** C7: with print_status set, doit_list writes the same lines for the
    same tasks as without it, each line behind exactly one of the letters
    I, U, R and a space: the letter the status map gives for the status
    (ignore, up-to-date, run) the dependency manager returns for the very
    task of that line. The status queries of the listed tasks are taken to
    give an answer. The letter is R for a task with no persisted record, I
    after an explicit ignore whatever the state of the files, and U after
    a commit of the current fingerprints of a task that is not marked
    ignored, the files being unchanged since and the required tasks
    up-to-date. *)
Theorem list_status_letters :
  (forall (depth status_fuel : nat) (fs : gmap string Fingerprint)
          (dependencyFile : gmap string DepRecord) (task_list : list Task)
          (outstream0 : list string) (filter_tasks : list string)
          (print_subtasks print_doc print_private : bool)
          (st : Task -> Status),
     (forall t,
        t ∈ fst (listed depth task_list filter_tasks print_subtasks
                   print_private) ->
        get_status status_fuel (tasks_dict task_list) fs
          (Dependency_open dependencyFile) t = Some (st t)) ->
     doit_list depth status_fuel fs dependencyFile task_list outstream0
       filter_tasks print_subtasks print_doc true print_private
     = (snd (listed depth task_list filter_tasks print_subtasks
               print_private),
        outstream0 ++
        ((fun t => status_line print_doc (st t) t) <$>
           fst (listed depth task_list filter_tasks print_subtasks
                  print_private)))) /\
  (forall (depth status_fuel : nat) (fs : gmap string Fingerprint)
          (dependencyFile : gmap string DepRecord) (task_list : list Task)
          (outstream0 : list string) (filter_tasks : list string)
          (print_subtasks print_doc print_private : bool),
     doit_list depth status_fuel fs dependencyFile task_list outstream0
       filter_tasks print_subtasks print_doc false print_private
     = (snd (listed depth task_list filter_tasks print_subtasks
               print_private),
        outstream0 ++
        ((fun t => task_text print_doc t +:+ nl) <$>
           fst (listed depth task_list filter_tasks print_subtasks
                  print_private)))) /\
  (forall (print_doc : bool) (task : Task),
     status_line print_doc st_ignore task
       = "I" +:+ " " +:+ task_text print_doc task +:+ nl /\
     status_line print_doc st_up_to_date task
       = "U" +:+ " " +:+ task_text print_doc task +:+ nl /\
     status_line print_doc st_run task
       = "R" +:+ " " +:+ task_text print_doc task +:+ nl) /\
  (forall (print_doc : bool) (tasks : gmap string Task) (d : Dependency)
          (fs : gmap string Fingerprint) (status_fuel : nat) (task : Task)
          (out : list string),
     records d !! name task = None ->
     get_status status_fuel tasks fs d task = Some st_run /\
     task_line print_doc true tasks d fs status_fuel task out =
     (Ok ("R" +:+ " " +:+ task_text print_doc task +:+ nl), out)) /\
  (forall (print_doc : bool) (tasks : gmap string Task) (d : Dependency)
          (fs : gmap string Fingerprint) (status_fuel : nat) (task : Task)
          (out : list string),
     get_status status_fuel tasks fs (dep_ignore task d) task
       = Some st_ignore /\
     task_line print_doc true tasks (dep_ignore task d) fs status_fuel
       task out =
     (Ok ("I" +:+ " " +:+ task_text print_doc task +:+ nl), out)) /\
  (forall (print_doc : bool) (tasks : gmap string Task) (d : Dependency)
          (fs fps : gmap string Fingerprint) (k : nat) (task : Task)
          (out : list string),
     (forall r, records d !! name task = Some r -> ignored r = false) ->
     (forall f, f ∈ file_dep task ->
        exists fp, fs !! f = Some fp /\ fps !! f = Some fp) ->
     (forall n, n ∈ task_dep task ->
        exists td, tasks !! n = Some td /\
          get_status k tasks fs (dep_commit task fps d) td
            = Some st_up_to_date) ->
     get_status (S k) tasks fs (dep_commit task fps d) task
       = Some st_up_to_date /\
     task_line print_doc true tasks (dep_commit task fps d) fs (S k)
       task out =
     (Ok ("U" +:+ " " +:+ task_text print_doc task +:+ nl), out)).
Proof.
  split; [|split; [|split; [|split; [|split]]]].
  - intros. apply (doit_list_listed (fun t => status_line print_doc (st t) t)).
    intros t Ht.
    by rewrite (task_line_status _ _ _ _ _ _ _ _ (H t Ht)).
  - intros.
    by apply (doit_list_listed (fun t => task_text print_doc t +:+ nl)).
  - done.
  - intros until out. intros Hnone.
    pose proof (get_status_no_record status_fuel tasks fs d task Hnone) as Hst.
    split; [done|]. by apply (task_line_status _ _ _ _ _ _ st_run).
  - intros. pose proof (get_status_ignored status_fuel tasks fs d task) as Hst.
    split; [done|]. by apply (task_line_status _ _ _ _ _ _ st_ignore).
  - intros until out. intros Hign Hfiles Hdeps.
    pose proof (get_status_committed k tasks fs fps d task Hign Hfiles Hdeps)
      as Hst.
    split; [done|]. by apply (task_line_status _ _ _ _ _ _ st_up_to_date).
Qed.

Lemma list_status_letters_witness :
  let x := mk_task "x" [CmdAction "touch x.out"] ["x.in"] [] in
  let now : gmap string Fingerprint := {[ "x.in" := "md5-2" ]} in
  doit_list 5 5 ∅ ∅ demo_listing [] ["build"; "lint"] false true true false
  = (Ok 0%Z, ["R build" +:+ tab +:+ "* compile" +:+ nl; "R lint" +:+ nl]) /\
  task_line false true (tasks_dict demo_tasks)
    (dep_commit x now (Dependency_open demo_db)) now 1 x [] =
  (Ok ("U" +:+ " " +:+ "x" +:+ nl), []).
Proof.
  intros x now.
  destruct list_status_letters as (Hlisted & _ & _ & _ & _ & Hcommitted).
  split.
  - rewrite (Hlisted 5 5 ∅ ∅ demo_listing [] ["build"; "lint"] false true
               false (fun _ => st_run)).
    + vm_compute. reflexivity.
    + intros t _. apply get_status_no_record. simpl. apply lookup_empty.
  - apply (Hcommitted false (tasks_dict demo_tasks) (Dependency_open demo_db)
             now now 0 x []).
    + intros r Hr. vm_compute in Hr. injection Hr as <-. reflexivity.
    + intros f Hf. apply list_elem_of_singleton in Hf as ->.
      exists "md5-2". split; vm_compute; reflexivity.
    + intros n Hn. by apply elem_of_nil in Hn.
Defined.

(** ** The reporter check of doit_run *)

(** C6 (as amended): when the reporter name is not in the registry,
    doit_run never enters the runner: it ends with a command error raised
    before any task is run. That error is the unknown-reporter error naming
    the offending reporter whenever task selection succeeds; when task
    selection itself raises, its error is the one that comes out. *)
Theorem unknown_reporter_never_enters_runner {ReporterCls : Type}
    (process : list Task -> option (list string) -> res (list Task))
    (REPORTERS : gmap string ReporterCls) (DEFAULT_VERBOSITY : Z)
    (dependencyFile : string) (task_list : list Task) (output : Output)
    (options : option (list string)) (verbosity : option Z)
    (alwaysExecute continue_ : bool) (reporter : string) :
  REPORTERS !! reporter = None ->
  (forall call,
     doit_run process REPORTERS DEFAULT_VERBOSITY dependencyFile task_list
       output options verbosity alwaysExecute continue_ reporter
     <> RunTasks call) /\
  (forall selected_tasks,
     process task_list options = Ok selected_tasks ->
     doit_run process REPORTERS DEFAULT_VERBOSITY dependencyFile task_list
       output options verbosity alwaysExecute continue_ reporter
     = RunRaised (no_reporter reporter)) /\
  (forall e,
     process task_list options = Raise e ->
     doit_run process REPORTERS DEFAULT_VERBOSITY dependencyFile task_list
       output options verbosity alwaysExecute continue_ reporter
     = RunRaised e).
Proof.
  intros Hrep. unfold doit_run. split; [|split].
  - intros call. destruct (process task_list options); [|done..].
    by rewrite Hrep.
  - intros sel ->. by rewrite Hrep.
  - by intros e ->.
Qed.

Lemma unknown_reporter_never_enters_runner_witness :
  demo_reporters !! "bogus" = None /\
  doit_run resolve_names demo_reporters 1 "doit.db" demo_tasks
    (OutputStream "sys.stdout") None None false false "bogus"
  = RunRaised (no_reporter "bogus").
Proof.
  assert (H : demo_reporters !! "bogus" = None) by (vm_compute; reflexivity).
  split; [exact H|].
  destruct (unknown_reporter_never_enters_runner resolve_names
              demo_reporters 1 "doit.db" demo_tasks
              (OutputStream "sys.stdout") None None false false "bogus" H)
    as (_ & Hsel & _).
  apply (Hsel demo_tasks). reflexivity.
Defined.

(** C6 as stated fails: task selection runs first (line 18), so with an
    unknown task name and an unknown reporter the error raised is the one
    about the task and does not name the reporter. *)
Lemma unknown_task_reported_before_reporter :
  demo_reporters !! "bogus" = None /\
  doit_run resolve_names demo_reporters 1 "doit.db" demo_tasks
    (OutputStream "sys.stdout") (Some ["nope"]) None false false "bogus"
  = RunRaised (not_a_task "nope") /\
  not_a_task "nope" <> no_reporter "bogus".
Proof. split; [|split]; [vm_compute; reflexivity.. | discriminate]. Qed.

(** ** The watch loop *)






(** ** Concrete runs *)

Example forget_group_run :
  let r := doit_forget 5 demo_db demo_tasks [] ["g"] in
  fst r = Ok tt /\
  outstream (snd r)
    = ["forgeting g" +:+ nl; "forgeting x" +:+ nl; "forgeting y" +:+ nl] /\
  closed (dependencyManager (snd r)) = true /\
  records (dependencyManager (snd r))
    = {[ "z" := {| fingerprints := ∅; ignored := false |} ]}.
Proof. vm_compute. repeat split. Qed.

Example forget_all_run :
  let r := doit_forget 0 demo_db demo_tasks [] [] in
  fst r = Ok tt /\
  outstream (snd r) = ["forgeting all tasks" +:+ nl] /\
  calls (dependencyManager (snd r)) = [CallRemoveAll; CallClose] /\
  records (dependencyManager (snd r)) = ∅.
Proof. vm_compute. repeat split. Qed.

Example ignore_group_run :
  let r := doit_ignore 5 demo_db demo_tasks [] ["g"] in
  ign_outcome r = Ok tt /\
  ign_outstream r
    = ["ignoring g" +:+ nl; "ignoring x" +:+ nl; "ignoring y" +:+ nl] /\
  (calls <$> ign_dependencyManager r)
    = Some [CallIgnore "g"; CallIgnore "x"; CallIgnore "y"; CallClose] /\
  (ign_dependencyManager r ≫= fun d => records d !! "x")
    = Some {| fingerprints := fingerprints demo_record; ignored := true |}.
Proof. vm_compute. repeat split. Qed.

Example dangling_member_raises_key_error :
  fst (doit_forget 5 demo_db [mk_task "g" [] [] ["gone"]] [] ["g"])
    = Raise (KeyError "gone").
Proof. vm_compute. reflexivity. Qed.

Example listing_with_subtasks :
  doit_list 5 5 ∅ ∅ demo_listing [] [] true false false false =
  (Ok 0%Z,
   ["build" +:+ nl; "build:a" +:+ nl; "builder" +:+ nl; "lint" +:+ nl;
    "builder" +:+ nl]).
Proof. vm_compute. reflexivity. Qed.

Example listing_with_status_and_doc :
  doit_list 5 5 ∅ ∅ demo_listing [] ["build"; "lint"] false true true false =
  (Ok 0%Z,
   ["R build" +:+ tab +:+ "* compile" +:+ nl; "R lint" +:+ nl]).
Proof. vm_compute. reflexivity. Qed.

Example watch_run :
  let r := doit_auto resolve_names demo_reporters 1 demo_abspath
             demo_dirname "doit.db" demo_tasks None demo_events
             {| watches := []; invocations := [] |} in
  fst r = Ok tt /\
  watches (snd r) = ["/proj"] /\
  (invocations (snd r)).*1
    = [ {| pathname := "/proj/x.in" |}; {| pathname := "/proj/y.in" |} ].
Proof. vm_compute. repeat split. Qed.

Lemma self_group_edge (a b : string) :
  group_edge (tasks_dict self_group) a b -> a = "loop" /\ b = "loop".
Proof.
  intros (t & Ha & _ & Hb). apply tasks_dict_name in Ha as [<- Hin].
  apply list_elem_of_singleton in Hin as ->. simpl in Hb.
  by apply list_elem_of_singleton in Hb as ->.
Qed.

Example group_naming_itself_never_finishes (fuel : nat) :
  fst (doit_forget fuel demo_db self_group [] ["loop"]) = OutOfFuel /\
  ign_outcome (doit_ignore fuel demo_db self_group [] ["loop"]) = OutOfFuel.
Proof.
  assert (Hedge : group_edge (tasks_dict self_group) "loop" "loop").
  { eexists. split; [by vm_compute|]. split; [done|]. by left. }
  apply worklist_loops_diverge_on_cycle.
  - intros y Hy.
    assert (Hstay : forall a b,
              rtc (group_edge (tasks_dict self_group)) a b ->
              a = "loop" -> b = "loop").
    { clear. intros a b Hab. induction Hab as [|a b c Hab _ IH]; [done|].
      intros _. apply IH. by apply self_group_edge in Hab as [_ ->]. }
    rewrite (Hstay _ _ Hy eq_refl).
    eexists. by vm_compute.
  - exists "loop". split; [done|]. by apply tc_once.
Qed.

(** * Further properties of the command layer *)

(** ** The task dictionary: the last task of a name is the one found *)

(** X1: [dict([(t.name, t) for t in task_list])] maps a name to the last
    task of the list that has this name, and to nothing when no task has
    it. *)
Theorem tasks_dict_last_wins (task_list : list Task) (k : string) :
  tasks_dict task_list !! k = last (filter (fun t => name t = k) task_list).
Proof.
  induction task_list as [|u l IH] using rev_ind; [done|].
  rewrite tasks_dict_snoc, filter_app, filter_cons, filter_nil.
  destruct (decide (name u = k)) as [<-|Hne].
  - by rewrite lookup_insert_eq, last_snoc.
  - rewrite lookup_insert_ne by done. by rewrite app_nil_r.
Qed.

(** ** Running forget and ignore, through the names they pop *)

Lemma doit_forget_run (fuel : nat) (db : gmap string DepRecord)
    (taskList : list Task) (outstream0 : list string) (names : list string) :
  names <> [] ->
  doit_forget fuel db taskList outstream0 names =
  let popped := fst (expand_each fuel (tasks_dict taskList) names) in
  let c := fold_left forget_one popped (start db outstream0) in
  match snd (expand_each fuel (tasks_dict taskList) names) with
  | Ok _ =>
      (Ok tt, {| dependencyManager := dep_close (dependencyManager c);
                 outstream := outstream c |})
  | r => (r, c)
  end.
Proof.
  intros Hne. rewrite doit_forget_names by done. unfold bind.
  rewrite forget_each_expand.
  by destruct (expand_each fuel (tasks_dict taskList) names) as [p [[]| |]].
Qed.

Lemma doit_ignore_run (fuel : nat) (db : gmap string DepRecord)
    (taskList : list Task) (outstream0 : list string) (names : list string) :
  names <> [] ->
  doit_ignore fuel db taskList outstream0 names =
  let popped := fst (expand_each fuel (tasks_dict taskList) names) in
  let c := fold_left (ignore_one (tasks_dict taskList)) popped
             (start db outstream0) in
  match snd (expand_each fuel (tasks_dict taskList) names) with
  | Ok _ =>
      {| ign_outcome := Ok tt;
         ign_dependencyManager := Some (dep_close (dependencyManager c));
         ign_outstream := outstream c |}
  | r =>
      {| ign_outcome := r;
         ign_dependencyManager := Some (dependencyManager c);
         ign_outstream := outstream c |}
  end.
Proof.
  intros Hne. rewrite doit_ignore_names by done. unfold bind.
  rewrite ignore_each_expand.
  by destruct (expand_each fuel (tasks_dict taskList) names) as [p [[]| |]].
Qed.

Lemma expand_popped_resolve (fuel : nat) (tasks : gmap string Task)
    (group : list string) (x : string) :
  x ∈ fst (expand fuel tasks group) -> is_Some (tasks !! x).
Proof.
  revert group. induction fuel as [|fuel IH]; intros [|y group] Hx;
    try (by apply elem_of_nil in Hx).
  simpl in Hx. destruct (tasks !! y) as [t|] eqn:Hy;
    [|by apply elem_of_nil in Hx].
  destruct (expand fuel tasks _) as [p r] eqn:Hrest. simpl in Hx.
  apply elem_of_cons in Hx as [->|Hx]; [by eexists|].
  eapply IH. by rewrite Hrest.
Qed.

Lemma expand_each_popped_resolve (fuel : nat) (tasks : gmap string Task)
    (names : list string) (x : string) :
  x ∈ fst (expand_each fuel tasks names) -> is_Some (tasks !! x).
Proof.
  induction names as [|n rest IH]; intros Hx; [by apply elem_of_nil in Hx|].
  simpl in Hx. destruct (tasks !! n); [|by apply elem_of_nil in Hx].
  pose proof (expand_popped_resolve fuel tasks [n] x) as Hn.
  destruct (expand fuel tasks [n]) as [p [[]| |]]; simpl in *;
    try (by apply Hn).
  destruct (expand_each fuel tasks rest) as [p' r]. simpl in *.
  apply elem_of_app in Hx as [Hx|Hx]; [by apply Hn | by apply IH].
Qed.

Lemma expand_popped_reachable (fuel : nat) (tasks : gmap string Task)
    (group : list string) (x : string) :
  x ∈ fst (expand fuel tasks group) ->
  exists n, n ∈ group /\ rtc (group_edge tasks) n x.
Proof.
  revert group. induction fuel as [|fuel IH]; intros [|y group] Hx;
    try (by apply elem_of_nil in Hx).
  simpl in Hx. destruct (tasks !! y) as [t|] eqn:Hy;
    [|by apply elem_of_nil in Hx].
  destruct (expand fuel tasks _) as [p r] eqn:Hrest. simpl in Hx.
  apply elem_of_cons in Hx as [->|Hx].
  - exists y. split; [by left | done].
  - destruct (IH _ ltac:(by rewrite Hrest)) as (n & Hn & Hreach).
    destruct (no_actions t) eqn:Ht.
    + apply elem_of_app in Hn as [Hn|Hn].
      * exists n. split; [by right | done].
      * exists y. split; [by left|]. eapply rtc_l; [|done]. by exists t.
    + exists n. split; [by right | done].
Qed.

Lemma expand_each_popped_reachable (fuel : nat) (tasks : gmap string Task)
    (names : list string) (x : string) :
  x ∈ fst (expand_each fuel tasks names) ->
  exists n, n ∈ names /\ rtc (group_edge tasks) n x.
Proof.
  induction names as [|n rest IH]; intros Hx; [by apply elem_of_nil in Hx|].
  simpl in Hx. destruct (tasks !! n); [|by apply elem_of_nil in Hx].
  pose proof (expand_popped_reachable fuel tasks [n] x) as Hn.
  assert (Hhere : x ∈ fst (expand fuel tasks [n]) ->
                  exists m, m ∈ n :: rest /\ rtc (group_edge tasks) m x).
  { intros H. destruct (Hn H) as (m & ->%list_elem_of_singleton & Hr).
    exists n. split; [by left | done]. }
  destruct (expand fuel tasks [n]) as [p [[]| |]]; simpl in *;
    try (by apply Hhere).
  destruct (expand_each fuel tasks rest) as [p' r]. simpl in *.
  apply elem_of_app in Hx as [Hx|Hx]; [by apply Hhere|].
  destruct (IH Hx) as (m & Hm & Hr). exists m. split; [by right | done].
Qed.

Lemma expand_each_names_popped (fuel : nat) (tasks : gmap string Task)
    (names popped : list string) :
  expand_each fuel tasks names = (popped, Ok tt) ->
  forall n, n ∈ names -> n ∈ popped.
Proof.
  revert popped. induction names as [|x rest IH]; intros popped Hexp n Hn;
    [by apply elem_of_nil in Hn|].
  simpl in Hexp. destruct (tasks !! x); [|discriminate].
  destruct (expand fuel tasks [x]) as [p [[]| |]] eqn:Hx; try discriminate.
  destruct (expand_each fuel tasks rest) as [p' r] eqn:Hrest.
  injection Hexp as <- ->. apply elem_of_app.
  apply elem_of_cons in Hn as [->|Hn].
  - left. apply (expand_pops_queue _ _ _ _ Hx). by left.
  - right. by apply (IH p').
Qed.

Lemma expand_each_reaches (fuel : nat) (tasks : gmap string Task)
    (names popped : list string) :
  expand_each fuel tasks names = (popped, Ok tt) ->
  forall n y, n ∈ names -> rtc (group_edge tasks) n y -> y ∈ popped.
Proof.
  intros Hexp n y Hn Hreach.
  assert (Hclosed : forall a b, rtc (group_edge tasks) a b ->
                                a ∈ popped -> b ∈ popped).
  { intros a b Hab. induction Hab as [|a b c (t & Ha & Ht & Hb) _ IH];
      [done|].
    intros Hin. apply IH.
    apply list_elem_of_split in Hin as (l1 & l2 & ->).
    apply elem_of_app. right. right.
    by apply (expand_each_members_after _ _ _ _ _ _ _ Hexp Ha Ht). }
  apply (Hclosed n y Hreach). by apply (expand_each_names_popped _ _ _ _ Hexp).
Qed.

Lemma fold_delete_lookup (popped : list string) (m : gmap string DepRecord)
    (y : string) :
  fold_left (fun m x => delete x m) popped m !! y =
  if decide (y ∈ popped) then None else m !! y.
Proof.
  revert m. induction popped as [|x popped IH]; intros m; simpl.
  - done.
  - rewrite IH. destruct (decide (y ∈ popped)) as [Hin|Hnin].
    + rewrite decide_True; [done | by right].
    + destruct (decide (x = y)) as [->|Hne].
      * rewrite lookup_delete_eq. rewrite decide_True; [done | by left].
      * rewrite lookup_delete_ne by done. rewrite decide_False; [done|].
        intros [?|?]%elem_of_cons; congruence.
Qed.

Lemma fold_ignore_lookup (tasks : gmap string Task) (popped : list string)
    (c : Cmd) (y : string) :
  (forall k t, tasks !! k = Some t -> name t = k) ->
  (forall x, x ∈ popped -> is_Some (tasks !! x)) ->
  records (dependencyManager (fold_left (ignore_one tasks) popped c)) !! y =
  if decide (y ∈ popped)
  then Some (set_ignored (records (dependencyManager c) !! y))
  else records (dependencyManager c) !! y.
Proof.
  intros Hname. revert c.
  induction popped as [|x popped IH]; intros c Hres; simpl.
  - done.
  - rewrite IH by (intros; apply Hres; by right).
    destruct (Hres x ltac:(by left)) as [t Hx].
    unfold ignore_one. rewrite Hx. cbn [dependencyManager].
    unfold dep_ignore. cbn [records]. rewrite (Hname _ _ Hx).
    destruct (decide (x = y)) as [->|Hne].
    + rewrite lookup_insert_eq. rewrite (decide_True (P := y ∈ y :: popped))
        by (by left).
      destruct (decide (y ∈ popped)); [by rewrite set_ignored_idem | done].
    + rewrite lookup_insert_ne by done.
      destruct (decide (y ∈ popped)) as [Hin|Hnin].
      * rewrite decide_True; [done | by right].
      * rewrite decide_False; [done|].
        intros [?|?]%elem_of_cons; congruence.
Qed.

Lemma fold_ignore_calls (tasks : gmap string Task) (popped : list string)
    (c : Cmd) :
  (forall k t, tasks !! k = Some t -> name t = k) ->
  (forall x, x ∈ popped -> is_Some (tasks !! x)) ->
  calls (dependencyManager (fold_left (ignore_one tasks) popped c)) =
  calls (dependencyManager c) ++ (CallIgnore <$> popped).
Proof.
  intros Hname. revert c.
  induction popped as [|x popped IH]; intros c Hres; simpl.
  - by rewrite app_nil_r.
  - rewrite IH by (intros; apply Hres; by right).
    destruct (Hres x ltac:(by left)) as [t Hx].
    unfold ignore_one. rewrite Hx. simpl. rewrite (Hname _ _ Hx).
    by rewrite <- app_assoc.
Qed.

Lemma fold_ignore_outstream (tasks : gmap string Task)
    (popped : list string) (c : Cmd) :
  (forall x, x ∈ popped -> is_Some (tasks !! x)) ->
  outstream (fold_left (ignore_one tasks) popped c) =
  outstream c ++ (ignoring <$> popped).
Proof.
  revert c. induction popped as [|x popped IH]; intros c Hres; simpl.
  - by rewrite app_nil_r.
  - rewrite IH by (intros; apply Hres; by right).
    destruct (Hres x ltac:(by left)) as [t Hx].
    unfold ignore_one. rewrite Hx. simpl. by rewrite <- app_assoc.
Qed.

Lemma tasks_dict_key (taskList : list Task) (k : string) (t : Task) :
  tasks_dict taskList !! k = Some t -> name t = k.
Proof. intros H. by apply tasks_dict_name in H as [? _]. Qed.

Lemma records_after_forget_popped (fuel : nat) (db : gmap string DepRecord)
    (taskList : list Task) (n : string) (rest : list string) :
  records_after_forget fuel db taskList (n :: rest) =
  fold_left (fun m x => delete x m)
    (fst (expand_each fuel (tasks_dict taskList) (n :: rest))) db.
Proof.
  unfold records_after_forget. rewrite doit_forget_run by done.
  destruct (expand_each fuel (tasks_dict taskList) (n :: rest))
    as [p [[]| |]]; cbn [fst snd dependencyManager dep_close records];
    by rewrite fold_forget_records.
Qed.

Lemma records_after_ignore_popped (fuel : nat) (db : gmap string DepRecord)
    (taskList : list Task) (n : string) (rest : list string) (y : string) :
  records_after_ignore fuel db taskList (n :: rest) !! y =
  if decide (y ∈ fst (expand_each fuel (tasks_dict taskList) (n :: rest)))
  then Some (set_ignored (db !! y))
  else db !! y.
Proof.
  unfold records_after_ignore. rewrite doit_ignore_run by done.
  pose proof (fold_ignore_lookup (tasks_dict taskList)
    (fst (expand_each fuel (tasks_dict taskList) (n :: rest)))
    (start db []) y (tasks_dict_key taskList)
    (expand_each_popped_resolve fuel _ _)) as Hl.
  by destruct (expand_each fuel (tasks_dict taskList) (n :: rest))
    as [p [[]| |]].
Qed.

(** ** The unknown-name command error, and what it leaves behind *)

(** C1 (as amended): the unknown-name command error is raised when the
    loop reaches the first name that is not a task, the names before it
    having been processed to their end. By then the remove (or ignore)
    calls for these earlier names and for everything they reach through
    the task_dep of group tasks have been made on the Dependency object:
    its records of them are removed (or marked ignored), and no other
    record is touched, none for the offending name or a later one of its
    own. The object is left unclosed. When the offending name is the
    first one, no call has been made on the object at all. *)
Theorem unknown_name_aborts_at_its_position (fuel : nat)
    (db : gmap string DepRecord) (taskList : list Task)
    (outstream0 : list string) (pre : list string) (bad : string)
    (post : list string) :
  tasks_dict taskList !! bad = None ->
  (forall c,
     forget_each fuel (tasks_dict taskList) pre (start db outstream0)
       = (Ok tt, c) ->
     doit_forget fuel db taskList outstream0 (pre ++ bad :: post)
       = (Raise (not_a_task bad), c) /\
     closed (dependencyManager c) = false /\
     (exists popped,
        calls (dependencyManager c) = CallRemove <$> popped /\
        forall n, n ∈ pre -> n ∈ popped) /\
     forall y,
       ((exists m, m ∈ pre /\ rtc (group_edge (tasks_dict taskList)) m y) ->
        records (dependencyManager c) !! y = None) /\
       ((forall m, m ∈ pre ->
                   ~ rtc (group_edge (tasks_dict taskList)) m y) ->
        records (dependencyManager c) !! y = db !! y)) /\
  (forall c,
     ignore_each fuel (tasks_dict taskList) pre (start db outstream0)
       = (Ok tt, c) ->
     doit_ignore fuel db taskList outstream0 (pre ++ bad :: post)
       = {| ign_outcome := Raise (not_a_task bad);
            ign_dependencyManager := Some (dependencyManager c);
            ign_outstream := outstream c |} /\
     closed (dependencyManager c) = false /\
     (exists popped,
        calls (dependencyManager c) = CallIgnore <$> popped /\
        forall n, n ∈ pre -> n ∈ popped) /\
     forall y,
       ((exists m, m ∈ pre /\ rtc (group_edge (tasks_dict taskList)) m y) ->
        records (dependencyManager c) !! y = Some (set_ignored (db !! y))) /\
       ((forall m, m ∈ pre ->
                   ~ rtc (group_edge (tasks_dict taskList)) m y) ->
        records (dependencyManager c) !! y = db !! y)) /\
  doit_forget fuel db taskList outstream0 (bad :: post)
    = (Raise (not_a_task bad), start db outstream0) /\
  doit_ignore fuel db taskList outstream0 (bad :: post)
    = {| ign_outcome := Raise (not_a_task bad);
         ign_dependencyManager := Some (Dependency_open db);
         ign_outstream := outstream0 |}.
Proof.
  intros Hbad. split; [|split; [|split]].
  - intros c Hpre. split.
    { rewrite doit_forget_names by (by destruct pre).
      unfold bind at 1. rewrite forget_each_app. unfold bind at 1.
      rewrite Hpre. simpl. by rewrite Hbad. }
    rewrite forget_each_expand in Hpre.
    destruct (expand_each fuel (tasks_dict taskList) pre)
      as [popped r] eqn:Hexp.
    cbn [fst snd] in Hpre. injection Hpre as -> <-.
    split; [by rewrite fold_forget_closed|]. split.
    { exists popped. split; [by rewrite fold_forget_calls|].
      by apply (expand_each_names_popped _ _ _ _ Hexp). }
    intros y. rewrite fold_forget_records, fold_delete_lookup. split.
    + intros (m & Hm & Hreach). rewrite decide_True; [done|].
      by apply (expand_each_reaches _ _ _ _ Hexp m).
    + intros Hnone. rewrite decide_False; [done|]. intros Hin.
      destruct (expand_each_popped_reachable fuel (tasks_dict taskList)
                  pre y) as (m & Hm & Hreach); [by rewrite Hexp|].
      by apply (Hnone m).
  - intros c Hpre. split.
    { rewrite doit_ignore_names by (by destruct pre).
      unfold bind at 1. rewrite ignore_each_app. unfold bind at 1.
      rewrite Hpre. simpl. by rewrite Hbad. }
    rewrite ignore_each_expand in Hpre.
    pose proof (expand_each_popped_resolve fuel (tasks_dict taskList) pre)
      as Hres.
    destruct (expand_each fuel (tasks_dict taskList) pre)
      as [popped r] eqn:Hexp.
    cbn [fst snd] in Hpre, Hres. injection Hpre as -> <-.
    split; [by rewrite fold_ignore_closed|]. split.
    { exists popped. split.
      - by rewrite (fold_ignore_calls _ _ _ (tasks_dict_key taskList) Hres).
      - by apply (expand_each_names_popped _ _ _ _ Hexp). }
    intros y.
    rewrite (fold_ignore_lookup _ _ _ y (tasks_dict_key taskList) Hres).
    cbn [start dependencyManager Dependency_open records]. split.
    + intros (m & Hm & Hreach). rewrite decide_True; [done|].
      by apply (expand_each_reaches _ _ _ _ Hexp m).
    + intros Hnone. rewrite decide_False; [done|]. intros Hin.
      destruct (expand_each_popped_reachable fuel (tasks_dict taskList)
                  pre y) as (m & Hm & Hreach); [by rewrite Hexp|].
      by apply (Hnone m).
  - unfold doit_forget, bind. simpl. by rewrite Hbad.
  - unfold doit_ignore, bind. simpl. by rewrite Hbad.
Qed.

Lemma unknown_name_aborts_at_its_position_witness :
  let r := doit_forget 5 demo_db demo_tasks [] (["x"] ++ "nope" :: ["y"]) in
  tasks_dict demo_tasks !! "nope" = None /\
  fst r = Raise (not_a_task "nope") /\
  demo_db !! "x" = Some demo_record /\
  records (dependencyManager (snd r)) !! "x" = None /\
  closed (dependencyManager (snd r)) = false /\
  fst (doit_forget 5 demo_db demo_tasks [] ("nope" :: ["y"]))
    = Raise (not_a_task "nope").
Proof.
  assert (H : tasks_dict demo_tasks !! "nope" = None)
    by (vm_compute; reflexivity).
  destruct (unknown_name_aborts_at_its_position 5 demo_db demo_tasks []
              ["x"] "nope" ["y"] H) as (Hf & _ & Hf0 & _).
  destruct (Hf (snd (forget_each 5 (tasks_dict demo_tasks) ["x"]
                       (start demo_db []))))
    as (Hrun & Hclosed & _ & Hrec); [vm_compute; reflexivity|].
  cbv zeta. rewrite Hrun. cbn [fst snd].
  split; [exact H|]. split; [reflexivity|].
  split; [vm_compute; reflexivity|]. split.
  - apply Hrec. exists "x". split; [by left | done].
  - split; [exact Hclosed|]. by rewrite Hf0.
Defined.

(** ** What forget and ignore write and call *)

(** X2: doit_forget and doit_ignore, given names, write one line per call
    they make on the store and in the same order, however they end: the
    names written are the names removed (or ignored), and [close()] alone
    follows them after a normal return. *)
Theorem one_line_per_store_call (fuel : nat) (db : gmap string DepRecord)
    (taskList : list Task) (outstream0 : list string) (n : string)
    (rest : list string) :
  (exists popped,
     let r := doit_forget fuel db taskList outstream0 (n :: rest) in
     outstream (snd r) = outstream0 ++ (forgeting <$> popped) /\
     calls (dependencyManager (snd r)) =
       (CallRemove <$> popped) ++
       match fst r with Ok _ => [CallClose] | _ => [] end) /\
  (exists popped,
     let r := doit_ignore fuel db taskList outstream0 (n :: rest) in
     ign_outstream r = outstream0 ++ (ignoring <$> popped) /\
     (calls <$> ign_dependencyManager r) =
       Some ((CallIgnore <$> popped) ++
             match ign_outcome r with Ok _ => [CallClose] | _ => [] end)).
Proof.
  split.
  - exists (fst (expand_each fuel (tasks_dict taskList) (n :: rest))).
    cbv zeta. rewrite doit_forget_run by done.
    destruct (expand_each fuel (tasks_dict taskList) (n :: rest))
      as [p [[]| |]]; cbn [fst snd dependencyManager outstream dep_close calls];
      rewrite fold_forget_outstream, fold_forget_calls; cbn;
      by rewrite ?app_nil_r.
  - exists (fst (expand_each fuel (tasks_dict taskList) (n :: rest))).
    cbv zeta. rewrite doit_ignore_run by done.
    pose proof (expand_each_popped_resolve fuel (tasks_dict taskList)
                  (n :: rest)) as Hres.
    destruct (expand_each fuel (tasks_dict taskList) (n :: rest))
      as [p [[]| |]];
      cbn [fst snd ign_outstream ign_dependencyManager ign_outcome
           outstream dependencyManager dep_close calls fmap option_fmap
           option_map] in *;
      rewrite fold_ignore_outstream by done;
      rewrite (fold_ignore_calls _ _ _ (tasks_dict_key taskList)) by done;
      cbn; by rewrite ?app_nil_r.
Qed.

(** ** What forget and ignore do to the records *)

(** X3: when doit_forget, given names, returns, the records removed are
    exactly those of the requested names and of everything reached from
    them through the task_dep of group tasks (tasks without actions), at
    any depth; every other record is as it was. *)
Theorem forget_removes_group_closure (fuel : nat)
    (db : gmap string DepRecord) (taskList : list Task)
    (outstream0 : list string) (n : string) (rest : list string) (c : Cmd) :
  doit_forget fuel db taskList outstream0 (n :: rest) = (Ok tt, c) ->
  forall y,
    ((exists m, m ∈ n :: rest /\
                rtc (group_edge (tasks_dict taskList)) m y) ->
     records (dependencyManager c) !! y = None) /\
    ((forall m, m ∈ n :: rest ->
                ~ rtc (group_edge (tasks_dict taskList)) m y) ->
     records (dependencyManager c) !! y = db !! y).
Proof.
  intros Hrun y. rewrite doit_forget_run in Hrun by done.
  destruct (expand_each fuel (tasks_dict taskList) (n :: rest))
    as [p [[]| |]] eqn:Hexp; try discriminate.
  cbn [fst snd] in Hrun. injection Hrun as <-.
  cbn [dependencyManager dep_close records].
  rewrite fold_forget_records, fold_delete_lookup. split.
  - intros (m & Hm & Hreach). rewrite decide_True; [done|].
    by apply (expand_each_reaches _ _ _ _ Hexp m).
  - intros Hnone. rewrite decide_False; [done|]. intros Hin.
    destruct (expand_each_popped_reachable fuel (tasks_dict taskList)
                (n :: rest) y) as (m & Hm & Hreach).
    { by rewrite Hexp. }
    by apply (Hnone m).
Qed.

Lemma forget_removes_group_closure_witness :
  exists c,
    doit_forget 5 demo_db demo_tasks [] ["g"] = (Ok tt, c) /\
    records (dependencyManager c) !! "y" = None /\
    records (dependencyManager c) !! "z" = demo_db !! "z".
Proof.
  exists (snd (doit_forget 5 demo_db demo_tasks [] ["g"])).
  assert (Hrun : doit_forget 5 demo_db demo_tasks [] ["g"]
                 = (Ok tt, snd (doit_forget 5 demo_db demo_tasks [] ["g"])))
    by (vm_compute; reflexivity).
  split; [exact Hrun|]. split.
  - destruct (forget_removes_group_closure 5 demo_db demo_tasks [] "g" [] _
                Hrun "y") as [Hin _].
    apply Hin. exists "g". split; [by left|]. apply rtc_once. unfold group_edge.
    eexists. split; [by vm_compute|]. split; [done|].
    right. by left.
  - vm_compute. reflexivity.
Defined.

(** X4: when doit_ignore, given names, returns, the records marked
    ignored are exactly those of the requested names and of everything
    reached from them through the task_dep of group tasks; such a record
    keeps the fingerprints it had, or is created without fingerprints, and
    every other record is as it was. *)
Theorem ignore_marks_group_closure (fuel : nat)
    (db : gmap string DepRecord) (taskList : list Task)
    (outstream0 : list string) (n : string) (rest : list string)
    (d : Dependency) :
  ign_outcome (doit_ignore fuel db taskList outstream0 (n :: rest))
    = Ok tt ->
  ign_dependencyManager (doit_ignore fuel db taskList outstream0 (n :: rest))
    = Some d ->
  forall y,
    ((exists m, m ∈ n :: rest /\
                rtc (group_edge (tasks_dict taskList)) m y) ->
     records d !! y = Some (set_ignored (db !! y))) /\
    ((forall m, m ∈ n :: rest ->
                ~ rtc (group_edge (tasks_dict taskList)) m y) ->
     records d !! y = db !! y).
Proof.
  intros Hok Hd y. rewrite doit_ignore_run in Hok, Hd by done.
  pose proof (fold_ignore_lookup (tasks_dict taskList)
    (fst (expand_each fuel (tasks_dict taskList) (n :: rest)))
    (start db outstream0) y (tasks_dict_key taskList)
    (expand_each_popped_resolve fuel _ _)) as Hl.
  destruct (expand_each fuel (tasks_dict taskList) (n :: rest))
    as [p [[]| |]] eqn:Hexp; try discriminate.
  cbn [fst snd ign_dependencyManager] in *. injection Hd as <-.
  cbn [dep_close records]. rewrite Hl. cbn [start dependencyManager
    Dependency_open records]. split.
  - intros (m & Hm & Hreach). rewrite decide_True; [done|].
    by apply (expand_each_reaches _ _ _ _ Hexp m).
  - intros Hnone. rewrite decide_False; [done|]. intros Hin.
    destruct (expand_each_popped_reachable fuel (tasks_dict taskList)
                (n :: rest) y) as (m & Hm & Hreach).
    { by rewrite Hexp. }
    by apply (Hnone m).
Qed.

Lemma ignore_marks_group_closure_witness :
  exists d,
    ign_dependencyManager (doit_ignore 5 demo_db demo_tasks [] ["g"])
      = Some d /\
    records d !! "x"
      = Some {| fingerprints := fingerprints demo_record; ignored := true |}.
Proof.
  pose (d := dep_close (dependencyManager
               (fold_left (ignore_one (tasks_dict demo_tasks)) ["g"; "x"; "y"]
                  (start demo_db [])))).
  assert (Hd : ign_dependencyManager
                 (doit_ignore 5 demo_db demo_tasks [] ["g"]) = Some d)
    by (vm_compute; reflexivity).
  exists d. split; [exact Hd|].
  assert (Hok : ign_outcome (doit_ignore 5 demo_db demo_tasks [] ["g"])
                = Ok tt) by (vm_compute; reflexivity).
  destruct (ignore_marks_group_closure 5 demo_db demo_tasks [] "g" [] d
              Hok Hd "x") as [Hin _].
  rewrite Hin; [vm_compute; reflexivity|].
  exists "g". split; [by left|]. apply rtc_once. unfold group_edge.
  eexists. split; [by vm_compute|]. split; [done|]. by left.
Defined.

(** X5: doit_forget never creates or changes a record: whatever the names
    and however it ends, every record in the store afterwards was there
    before, unchanged. *)
Theorem forget_only_removes (fuel : nat) (db : gmap string DepRecord)
    (taskList : list Task) (names : list string) :
  records_after_forget fuel db taskList names ⊆ db.
Proof.
  destruct names as [|n rest].
  - unfold records_after_forget. simpl. apply map_empty_subseteq.
  - rewrite records_after_forget_popped. apply map_subseteq_spec.
    intros y r. rewrite fold_delete_lookup. by case_decide.
Qed.

(** X6: doit_ignore never deletes a record and never touches stored
    fingerprints: whatever the names and however it ends, every record of
    the store is still there afterwards with the fingerprints it had, and
    a record that was marked ignored still is. *)
Theorem ignore_keeps_records (fuel : nat) (db : gmap string DepRecord)
    (taskList : list Task) (names : list string) (y : string)
    (r : DepRecord) :
  db !! y = Some r ->
  exists r',
    records_after_ignore fuel db taskList names !! y = Some r' /\
    fingerprints r' = fingerprints r /\
    (ignored r = true -> ignored r' = true).
Proof.
  intros Hy. destruct names as [|n rest].
  - exists r. split; [exact Hy | by split].
  - rewrite records_after_ignore_popped. case_decide.
    + rewrite Hy. eexists. split; [reflexivity|]. by split.
    + exists r. by rewrite Hy.
Qed.

Lemma ignore_keeps_records_witness :
  exists r',
    records_after_ignore 1 demo_db demo_tasks ["g"; "nope"] !! "x"
      = Some r' /\
    fingerprints r' = fingerprints demo_record /\
    (ignored demo_record = true -> ignored r' = true).
Proof.
  apply (ignore_keeps_records 1 demo_db demo_tasks ["g"; "nope"] "x"
           demo_record).
  vm_compute. reflexivity.
Defined.

(** X7: doit_forget and doit_ignore never read the store: how they end,
    what they write and the calls they make on the store are the same
    whatever records the store holds. *)
Theorem traversal_ignores_store (fuel : nat) (db1 db2 : gmap string DepRecord)
    (taskList : list Task) (outstream0 : list string) (names : list string) :
  (let r1 := doit_forget fuel db1 taskList outstream0 names in
   let r2 := doit_forget fuel db2 taskList outstream0 names in
   fst r1 = fst r2 /\
   outstream (snd r1) = outstream (snd r2) /\
   calls (dependencyManager (snd r1)) = calls (dependencyManager (snd r2)))
  /\
  (let r1 := doit_ignore fuel db1 taskList outstream0 names in
   let r2 := doit_ignore fuel db2 taskList outstream0 names in
   ign_outcome r1 = ign_outcome r2 /\
   ign_outstream r1 = ign_outstream r2 /\
   (calls <$> ign_dependencyManager r1) = (calls <$> ign_dependencyManager r2)).
Proof.
  destruct names as [|n rest]; [done|]. split; cbv zeta.
  - rewrite !doit_forget_run by done.
    destruct (expand_each fuel (tasks_dict taskList) (n :: rest))
      as [p [[]| |]];
      cbn [fst snd dependencyManager outstream dep_close calls];
      by rewrite !fold_forget_outstream, !fold_forget_calls.
  - rewrite !doit_ignore_run by done.
    pose proof (expand_each_popped_resolve fuel (tasks_dict taskList)
                  (n :: rest)) as Hres.
    destruct (expand_each fuel (tasks_dict taskList) (n :: rest))
      as [p [[]| |]];
      cbn [fst snd ign_outstream ign_dependencyManager ign_outcome
           outstream dependencyManager dep_close calls fmap option_fmap
           option_map] in *;
      rewrite !fold_ignore_outstream by done;
      by rewrite !(fold_ignore_calls _ _ _ (tasks_dict_key taskList)) by done.
Qed.

(** ** How forget and ignore commands compose *)

(** X8: doit_forget and doit_ignore are idempotent on the store: running
    the same command again on the records it left leaves them as they
    are. *)
Theorem forget_and_ignore_idempotent (fuel : nat)
    (db : gmap string DepRecord) (taskList : list Task)
    (names : list string) :
  records_after_forget fuel
    (records_after_forget fuel db taskList names) taskList names
  = records_after_forget fuel db taskList names /\
  records_after_ignore fuel
    (records_after_ignore fuel db taskList names) taskList names
  = records_after_ignore fuel db taskList names.
Proof.
  destruct names as [|n rest]; [done|]. split; apply map_eq; intros y.
  - rewrite !records_after_forget_popped, !fold_delete_lookup.
    by case_decide.
  - rewrite !records_after_ignore_popped.
    case_decide; [by rewrite set_ignored_idem | done].
Qed.

(** X9: the order of two forget commands, and of two ignore commands,
    does not matter for the records they leave, whatever the names and
    however each command ends. *)
Theorem forget_and_ignore_commute (fuel : nat) (db : gmap string DepRecord)
    (taskList : list Task) (names1 names2 : list string) :
  records_after_forget fuel
    (records_after_forget fuel db taskList names1) taskList names2
  = records_after_forget fuel
      (records_after_forget fuel db taskList names2) taskList names1 /\
  records_after_ignore fuel
    (records_after_ignore fuel db taskList names1) taskList names2
  = records_after_ignore fuel
      (records_after_ignore fuel db taskList names2) taskList names1.
Proof.
  assert (Hall : forall db', records_after_forget fuel db' taskList [] = ∅)
    by done.
  split.
  - destruct names1 as [|n1 rest1], names2 as [|n2 rest2]; try done.
    + rewrite !Hall. apply map_eq. intros y.
      rewrite records_after_forget_popped, fold_delete_lookup.
      by case_decide.
    + rewrite !Hall. apply map_eq. intros y.
      rewrite records_after_forget_popped, fold_delete_lookup.
      by case_decide.
    + apply map_eq. intros y.
      rewrite !records_after_forget_popped, !fold_delete_lookup.
      by repeat case_decide.
  - destruct names1 as [|n1 rest1], names2 as [|n2 rest2]; try done.
    apply map_eq. intros y. rewrite !records_after_ignore_popped.
    repeat case_decide; by rewrite ?set_ignored_idem.
Qed.

(** X10: forgetting clears the ignored mark: forgetting names after
    ignoring the same names leaves the records that forgetting alone
    leaves. *)
Theorem forget_after_ignore (fuel : nat) (db : gmap string DepRecord)
    (taskList : list Task) (names : list string) :
  records_after_forget fuel
    (records_after_ignore fuel db taskList names) taskList names
  = records_after_forget fuel db taskList names.
Proof.
  destruct names as [|n rest]; [done|]. apply map_eq. intros y.
  rewrite !records_after_forget_popped, !fold_delete_lookup.
  case_decide as Hin; [done|].
  rewrite records_after_ignore_popped. by rewrite decide_False.
Qed.

Lemma expand_each_app (fuel : nat) (tasks : gmap string Task)
    (l1 l2 : list string) :
  expand_each fuel tasks (l1 ++ l2) =
  match expand_each fuel tasks l1 with
  | (p1, Ok _) =>
      (p1 ++ fst (expand_each fuel tasks l2),
       snd (expand_each fuel tasks l2))
  | (p1, r) => (p1, r)
  end.
Proof.
  induction l1 as [|n l1 IH]; simpl.
  - by destruct (expand_each fuel tasks l2).
  - destruct (tasks !! n); [|done].
    destruct (expand fuel tasks [n]) as [p [[]| |]]; try done.
    rewrite IH.
    destruct (expand_each fuel tasks l1) as [p1 [[]| |]]; try done.
    by rewrite app_assoc.
Qed.

(** X11: when one forget command on two lists of names put together
    returns, so do two commands run one list after the other, and the
    store holds the same records either way; each of the three runs has
    closed the store, so the records are those flushed. *)
Theorem forget_of_appended_names (fuel : nat) (db : gmap string DepRecord)
    (taskList : list Task) (names1 names2 : list string) :
  names1 <> [] -> names2 <> [] ->
  fst (doit_forget fuel db taskList [] (names1 ++ names2)) = Ok tt ->
  let r1 := doit_forget fuel db taskList [] names1 in
  let r2 := doit_forget fuel (records_after_forget fuel db taskList names1)
              taskList [] names2 in
  fst r1 = Ok tt /\ closed (dependencyManager (snd r1)) = true /\
  fst r2 = Ok tt /\ closed (dependencyManager (snd r2)) = true /\
  closed (dependencyManager
            (snd (doit_forget fuel db taskList [] (names1 ++ names2))))
    = true /\
  records_after_forget fuel db taskList (names1 ++ names2)
    = records (dependencyManager (snd r2)).
Proof.
  intros H1 H2 Hok. cbv zeta.
  destruct names1 as [|n1 rest1]; [done|].
  destruct names2 as [|n2 rest2]; [done|].
  change ((n1 :: rest1) ++ n2 :: rest2)
    with (n1 :: (rest1 ++ n2 :: rest2)) in *.
  rewrite records_after_forget_popped.
  unfold records_after_forget.
  rewrite !doit_forget_run in * by done.
  change (n1 :: (rest1 ++ n2 :: rest2))
    with ((n1 :: rest1) ++ n2 :: rest2) in *.
  rewrite expand_each_app in *.
  destruct (expand_each fuel (tasks_dict taskList) (n1 :: rest1))
    as [p1 [[]| |]]; try discriminate.
  cbn [fst snd] in *.
  destruct (expand_each fuel (tasks_dict taskList) (n2 :: rest2))
    as [p2 [[]| |]]; try discriminate.
  cbn [fst snd dependencyManager dep_close closed records].
  repeat (split; [done|]).
  by rewrite !fold_forget_records, fold_left_app.
Qed.

Lemma forget_of_appended_names_witness :
  records_after_forget 5 demo_db demo_tasks (["x"] ++ ["g"])
  = records (dependencyManager
      (snd (doit_forget 5 (records_after_forget 5 demo_db demo_tasks ["x"])
              demo_tasks [] ["g"]))).
Proof.
  apply (forget_of_appended_names 5 demo_db demo_tasks ["x"] ["g"]).
  - discriminate.
  - discriminate.
  - vm_compute. reflexivity.
Defined.

(** ** Groups whose members are plain tasks, or are missing *)

Lemma expand_leaves (fuel : nat) (tasks : gmap string Task)
    (group : list string) :
  (forall m, m ∈ group ->
     exists t, tasks !! m = Some t /\ no_actions t = false) ->
  length group <= fuel ->
  expand fuel tasks group = (group, Ok tt).
Proof.
  revert group. induction fuel as [|fuel IH]; intros [|x group] Hl Hlen;
    try done; simpl in Hlen; try lia.
  simpl. destruct (Hl x ltac:(by left)) as (t & -> & ->).
  rewrite IH; [done | intros; apply Hl; by right | lia].
Qed.

Lemma expand_then_missing (fuel : nat) (tasks : gmap string Task)
    (pre : list string) (m : string) (post : list string) :
  (forall x, x ∈ pre -> is_Some (tasks !! x)) ->
  tasks !! m = None ->
  length pre < fuel ->
  expand fuel tasks (pre ++ m :: post) = (pre, Raise (KeyError m)).
Proof.
  revert pre post.
  induction fuel as [|fuel IH]; intros pre post Hl Hm Hlen; [lia|].
  destruct pre as [|x pre]; simpl.
  - by rewrite Hm.
  - destruct (Hl x ltac:(by left)) as [t Hx]. rewrite Hx. simpl in Hlen.
    assert (Hq : (if no_actions t
                  then (pre ++ m :: post) ++ task_dep t
                  else pre ++ m :: post)
                 = pre ++ m :: (if no_actions t then post ++ task_dep t
                                else post)).
    { destruct (no_actions t); [by rewrite <- app_assoc | done]. }
    rewrite Hq, IH; [done | intros; apply Hl; by right | done | lia].
Qed.

(** X12: forgetting a group task whose task_dep names only tasks with
    actions removes the group first and then each member in the order of
    task_dep, a member named twice being removed and reported twice, and
    closes the store. *)
Theorem forget_group_of_plain_tasks (fuel : nat)
    (db : gmap string DepRecord) (taskList : list Task)
    (outstream0 : list string) (g : string) (G : Task) :
  tasks_dict taskList !! g = Some G ->
  actions G = [] ->
  (forall m, m ∈ task_dep G ->
     exists t, tasks_dict taskList !! m = Some t /\ actions t <> []) ->
  length (task_dep G) < fuel ->
  let r := doit_forget fuel db taskList outstream0 [g] in
  fst r = Ok tt /\
  calls (dependencyManager (snd r))
    = CallRemove g :: (CallRemove <$> task_dep G) ++ [CallClose] /\
  outstream (snd r)
    = outstream0 ++ forgeting g :: (forgeting <$> task_dep G).
Proof.
  intros Hg HG Hdeps Hfuel. cbv zeta.
  destruct fuel as [|fuel]; [lia|].
  assert (Hexp : expand (S fuel) (tasks_dict taskList) [g]
                 = (g :: task_dep G, Ok tt)).
  { simpl. rewrite Hg, (no_actions_true _ HG). simpl.
    rewrite expand_leaves; [done | | lia].
    intros m Hm. destruct (Hdeps m Hm) as (t & Ht & Hact).
    exists t. split; [done | by apply no_actions_false]. }
  rewrite doit_forget_run by done. cbn [expand_each]. rewrite Hg, Hexp.
  cbn [fst snd app dependencyManager outstream dep_close calls].
  rewrite fold_forget_calls, fold_forget_outstream.
  cbn. rewrite app_nil_r. done.
Qed.

Lemma forget_group_of_plain_tasks_witness :
  let r := doit_forget 3 demo_db demo_tasks [] ["g"] in
  fst r = Ok tt /\
  calls (dependencyManager (snd r))
    = CallRemove "g" :: (CallRemove <$> ["x"; "y"]) ++ [CallClose] /\
  outstream (snd r) = [] ++ forgeting "g" :: (forgeting <$> ["x"; "y"]).
Proof.
  apply (forget_group_of_plain_tasks 3 demo_db demo_tasks [] "g"
           (mk_task "g" [] [] ["x"; "y"])).
  - vm_compute. reflexivity.
  - reflexivity.
  - intros m Hm. simpl in Hm.
    apply elem_of_cons in Hm as [->|Hm];
      [|apply list_elem_of_singleton in Hm as ->];
      eexists; (split; [vm_compute; reflexivity | discriminate]).
  - simpl. lia.
Defined.

(** X13: a group task whose task_dep names something that is not a task
    makes doit_forget and doit_ignore end in a KeyError for the first such
    name, not in a command error. The entries of task_dep before it are
    tasks, with actions or groups themselves: the group and these entries
    have been removed (or ignored) by then and nothing else, the members
    of the groups among them waiting behind the missing name in the work
    list. The names requested after the group are not looked at, and the
    Dependency object is left unclosed. *)
Theorem missing_member_raises_key_error (fuel : nat)
    (db : gmap string DepRecord) (taskList : list Task)
    (outstream0 : list string) (g : string) (G : Task)
    (pre : list string) (m : string) (post rest : list string) :
  tasks_dict taskList !! g = Some G ->
  actions G = [] ->
  task_dep G = pre ++ m :: post ->
  (forall x, x ∈ pre -> is_Some (tasks_dict taskList !! x)) ->
  tasks_dict taskList !! m = None ->
  S (length pre) < fuel ->
  let r := doit_forget fuel db taskList outstream0 (g :: rest) in
  let r' := doit_ignore fuel db taskList outstream0 (g :: rest) in
  fst r = Raise (KeyError m) /\
  calls (dependencyManager (snd r)) = CallRemove g :: (CallRemove <$> pre) /\
  closed (dependencyManager (snd r)) = false /\
  ign_outcome r' = Raise (KeyError m) /\
  (calls <$> ign_dependencyManager r')
    = Some (CallIgnore g :: (CallIgnore <$> pre)) /\
  (closed <$> ign_dependencyManager r') = Some false.
Proof.
  intros Hg HG Hdep Hpre Hm Hfuel. cbv zeta.
  destruct fuel as [|fuel]; [lia|].
  assert (Hexp : expand (S fuel) (tasks_dict taskList) [g]
                 = (g :: pre, Raise (KeyError m))).
  { simpl. rewrite Hg, (no_actions_true _ HG), Hdep. simpl.
    rewrite expand_then_missing; [done | done | done | lia]. }
  pose proof (expand_each_popped_resolve (S fuel) (tasks_dict taskList)
                (g :: rest)) as Hres.
  rewrite doit_forget_run, doit_ignore_run by done.
  cbn [expand_each] in *. rewrite Hg, Hexp in *.
  cbn [fst snd dependencyManager ign_outcome ign_dependencyManager
       fmap option_fmap option_map] in *.
  rewrite fold_forget_calls, fold_forget_closed.
  rewrite (fold_ignore_calls _ _ _ (tasks_dict_key taskList) Hres).
  by rewrite fold_ignore_closed.
Qed.

Lemma missing_member_raises_key_error_witness :
  let tl := [ mk_task "g" [] [] ["h"; "gone"; "y"];
              mk_task "h" [] [] ["x"];
              mk_task "x" [CmdAction "touch x.out"] [] [] ] in
  let r := doit_forget 5 demo_db tl [] ["g"; "x"] in
  fst r = Raise (KeyError "gone") /\
  calls (dependencyManager (snd r)) = [CallRemove "g"; CallRemove "h"].
Proof.
  intros tl.
  destruct (missing_member_raises_key_error 5 demo_db tl [] "g"
              (mk_task "g" [] [] ["h"; "gone"; "y"]) ["h"] "gone" ["y"]
              ["x"]) as (Hout & Hcalls & _).
  - vm_compute. reflexivity.
  - reflexivity.
  - reflexivity.
  - intros x Hx. apply list_elem_of_singleton in Hx as ->.
    eexists. vm_compute. reflexivity.
  - vm_compute. reflexivity.
  - simpl. lia.
  - split; [exact Hout | exact Hcalls].
Defined.

(** ** Listing: which tasks are listed, and when the listing fails *)

Lemma map_m_getitem_resolved {S A} (d : gmap string A) (names : list string)
    (xs : list A) (s : S) :
  Forall2 (fun n x => d !! n = Some x) names xs ->
  map_m (getitem d) names s = (Ok xs, s).
Proof.
  induction 1 as [|n x names xs Hn _ IH]; [done|].
  simpl. unfold bind, getitem at 1. rewrite Hn. unfold ret at 1.
  by rewrite IH.
Qed.

Lemma map_m_getitem_missing {S A} (d : gmap string A)
    (pre : list string) (bad : string) (post : list string) (s : S) :
  (forall n, n ∈ pre -> is_Some (d !! n)) ->
  d !! bad = None ->
  map_m (getitem d) (pre ++ bad :: post) s = (Raise (KeyError bad), s).
Proof.
  intros Hpre Hbad. induction pre as [|n pre IH]; simpl.
  - unfold bind, getitem. by rewrite Hbad.
  - destruct (Hpre n ltac:(by left)) as [x Hn].
    unfold bind, getitem at 1. rewrite Hn. unfold ret at 1.
    rewrite IH; [done | intros; apply Hpre; by right].
Qed.

Lemma for_each_app {S A} (f : A -> M S unit) (l1 l2 : list A) (s : S) :
  for_each (l1 ++ l2) f s = (for_each l1 f >>> for_each l2 f) s.
Proof.
  revert s. induction l1 as [|x l1 IH]; intros s; [done|].
  simpl. unfold bind.
  destruct (f x s) as [[[]| |] s']; first [done | apply IH].
Qed.

Lemma for_each_print {A} (skip : A -> bool) (line : A -> string)
    (print : A -> M (list string) unit) (l : list A) (out : list string) :
  (forall x o, print x o = (Ok tt, o ++ [line x])) ->
  for_each l (fun x => if skip x then ret tt else print x) out =
  (Ok tt, out ++ (line <$> filter (fun x => negb (skip x)) l)).
Proof.
  intros Hprint. revert out. induction l as [|x l IH]; intros out; simpl.
  - by rewrite app_nil_r.
  - rewrite filter_cons. unfold bind. destruct (skip x); simpl.
    + apply IH.
    + rewrite Hprint, IH. by rewrite <- app_assoc.
Qed.

Lemma list_print_task_plain (print_doc : bool) (tasks : gmap string Task)
    (dependencyManager : Dependency) (fs : gmap string Fingerprint)
    (status_fuel depth : nat) (task : Task) (out : list string) :
  _list_print_task false print_doc false tasks dependencyManager fs
    status_fuel (S depth) task out =
  (Ok tt, out ++ [task_text print_doc task +:+ nl]).
Proof. reflexivity. Qed.

(** X14: a name in [filter_tasks] that is not a task makes doit_list end
    in a KeyError for the first such name before anything is written, the
    names before it being tasks or not. *)
Theorem list_unknown_name_writes_nothing (depth status_fuel : nat)
    (fs : gmap string Fingerprint) (dependencyFile : gmap string DepRecord)
    (task_list : list Task) (outstream0 : list string)
    (pre : list string) (bad : string) (post : list string)
    (print_subtasks print_doc print_status print_private : bool) :
  (forall n, n ∈ pre -> is_Some (tasks_dict task_list !! n)) ->
  tasks_dict task_list !! bad = None ->
  doit_list depth status_fuel fs dependencyFile task_list outstream0
    (pre ++ bad :: post) print_subtasks print_doc print_status print_private
  = (Raise (KeyError bad), outstream0).
Proof.
  intros Hpre Hbad. unfold doit_list. unfold bind at 1.
  assert (Hm : match pre ++ bad :: post with
               | [] => ret task_list
               | _ :: _ =>
                   map_m (getitem (tasks_dict task_list)) (pre ++ bad :: post)
               end outstream0 = (Raise (KeyError bad), outstream0)).
  { rewrite <- (map_m_getitem_missing (tasks_dict task_list) pre bad post
                  outstream0 Hpre Hbad). by destruct pre. }
  by rewrite Hm.
Qed.

Lemma list_unknown_name_writes_nothing_witness :
  doit_list 5 5 ∅ ∅ demo_listing [] (["lint"] ++ "zz" :: ["build"])
    true true true false
  = (Raise (KeyError "zz"), []).
Proof.
  apply (list_unknown_name_writes_nothing 5 5 ∅ ∅ demo_listing []
           ["lint"] "zz" ["build"] true true true false).
  - intros n Hn. apply list_elem_of_singleton in Hn as ->.
    eexists. vm_compute. reflexivity.
  - vm_compute. reflexivity.
Defined.

(** X15: without a filter, without sub-task printing and without status,
    doit_list writes one line per task of the task list that is not a
    sub-task and, unless print_private is set, whose name does not start
    with an underscore, in the order of the task list, and returns 0. *)
Theorem default_listing (depth status_fuel : nat)
    (fs : gmap string Fingerprint) (dependencyFile : gmap string DepRecord)
    (task_list : list Task) (outstream0 : list string)
    (print_doc print_private : bool) :
  doit_list (S depth) status_fuel fs dependencyFile task_list outstream0 []
    false print_doc false print_private
  = (Ok 0%Z,
     outstream0 ++
     ((fun t => task_text print_doc t +:+ nl) <$>
        filter (fun t => listed_by_default print_private t) task_list)).
Proof.
  unfold doit_list. unfold bind at 1. unfold ret at 1. unfold bind.
  pose proof (for_each_print
    (fun t => negb (listed_by_default print_private t))
    (fun t => task_text print_doc t +:+ nl)
    (_list_print_task false print_doc false (tasks_dict task_list)
       (Dependency_open dependencyFile) fs status_fuel (S depth))
    task_list outstream0
    (list_print_task_plain print_doc _ _ _ _ _)) as Hfe.
  erewrite for_each_ext.
  - rewrite Hfe. unfold ret. do 3 f_equal.
    apply list_filter_iff. intros t. by rewrite negb_involutive.
  - intros t o. cbn beta. unfold listed_by_default.
    rewrite bool_decide_eq_true_2 by done. cbn [andb].
    destruct (is_subtask t); [done|]. cbn [negb andb].
    by destruct (negb print_private && startswith (name t) "_").
Qed.

(** X16: with a filter whose names are all tasks, doit_list lists the
    tasks the names resolve to, in the order of the filter and a name given
    twice listed twice; sub-tasks are listed like other tasks, and only
    names that start with an underscore are left out unless print_private
    is set. *)
Theorem filtered_listing (depth status_fuel : nat)
    (fs : gmap string Fingerprint) (dependencyFile : gmap string DepRecord)
    (task_list : list Task) (outstream0 : list string)
    (n : string) (rest : list string) (ts : list Task)
    (print_doc print_private : bool) :
  Forall2 (fun k t => tasks_dict task_list !! k = Some t) (n :: rest) ts ->
  doit_list (S depth) status_fuel fs dependencyFile task_list outstream0
    (n :: rest) false print_doc false print_private
  = (Ok 0%Z,
     outstream0 ++
     ((fun t => task_text print_doc t +:+ nl) <$>
        filter (fun t => listed_when_named print_private t) ts)).
Proof.
  intros Hres. unfold doit_list. unfold bind at 1.
  rewrite (map_m_getitem_resolved _ _ _ _ Hres). unfold bind.
  pose proof (for_each_print
    (fun t => negb (listed_when_named print_private t))
    (fun t => task_text print_doc t +:+ nl)
    (_list_print_task false print_doc false (tasks_dict task_list)
       (Dependency_open dependencyFile) fs status_fuel (S depth))
    ts outstream0 (list_print_task_plain print_doc _ _ _ _ _)) as Hfe.
  erewrite for_each_ext.
  - rewrite Hfe. unfold ret. do 3 f_equal.
    apply list_filter_iff. intros t. by rewrite negb_involutive.
  - intros t o. cbn beta. unfold listed_when_named.
    rewrite bool_decide_eq_false_2 by done. cbn [andb].
    by destruct (negb print_private && startswith (name t) "_").
Qed.

Lemma filtered_listing_witness :
  doit_list 1 0 ∅ ∅ demo_listing [] ["build:a"; "lint"; "build:a"]
    false false false false
  = (Ok 0%Z, ["build:a" +:+ nl; "lint" +:+ nl; "build:a" +:+ nl]).
Proof.
  assert (Hres : Forall2
            (fun k t => tasks_dict demo_listing !! k = Some t)
            ["build:a"; "lint"; "build:a"]
            [ {| name := "build:a"; actions := [CmdAction "cc a.c"];
                 file_dep := ["a.c"]; task_dep := [];
                 doc := EmptyString; is_subtask := true |};
              mk_task "lint" [CmdAction "lint"] [] [];
              {| name := "build:a"; actions := [CmdAction "cc a.c"];
                 file_dep := ["a.c"]; task_dep := [];
                 doc := EmptyString; is_subtask := true |} ]).
  { repeat constructor; vm_compute; reflexivity. }
  rewrite (filtered_listing 0 0 ∅ ∅ demo_listing [] "build:a"
             ["lint"; "build:a"] _ false false Hres).
  vm_compute. reflexivity.
Defined.

Lemma list_print_task_without_status (print_subtasks print_doc : bool)
    (tasks : gmap string Task) (d1 d2 : Dependency)
    (fs1 fs2 : gmap string Fingerprint) (sf1 sf2 depth : nat) (task : Task)
    (out : list string) :
  _list_print_task print_subtasks print_doc false tasks d1 fs1 sf1 depth
    task out =
  _list_print_task print_subtasks print_doc false tasks d2 fs2 sf2 depth
    task out.
Proof.
  revert task out. induction depth as [|depth IH]; intros task out; [done|].
  cbn [_list_print_task]. unfold bind, task_line, ret, swrite, modify.
  destruct print_subtasks; [|done].
  apply for_each_ext. intros subt s.
  destruct (startswith subt (name task)); [|done].
  destruct (getitem tasks subt s) as [[t| |] s']; [apply IH | done..].
Qed.

(** X17: without print_status doit_list never consults the dependency
    store: what it writes and how it ends are the same whatever the store
    holds and whatever the state of the files. *)
Theorem listing_without_status_ignores_store (depth sf1 sf2 : nat)
    (fs1 fs2 : gmap string Fingerprint) (db1 db2 : gmap string DepRecord)
    (task_list : list Task) (outstream0 : list string)
    (filter_tasks : list string)
    (print_subtasks print_doc print_private : bool) :
  doit_list depth sf1 fs1 db1 task_list outstream0 filter_tasks
    print_subtasks print_doc false print_private
  = doit_list depth sf2 fs2 db2 task_list outstream0 filter_tasks
      print_subtasks print_doc false print_private.
Proof.
  unfold doit_list. unfold bind at 1 3.
  destruct (match filter_tasks with
            | [] => ret task_list
            | _ :: _ => map_m (getitem (tasks_dict task_list)) filter_tasks
            end outstream0) as [[pt| |] out1]; [|done..].
  unfold bind. erewrite for_each_ext; [reflexivity|].
  intros task o. cbn beta.
  destruct (bool_decide (filter_tasks = []) && is_subtask task); [done|].
  destruct (negb print_private && startswith (name task) "_"); [done|].
  apply list_print_task_without_status.
Qed.

Lemma startswith_itself (s : string) : startswith s s = true.
Proof.
  unfold startswith. induction s as [|a s IH]; [done|].
  simpl. by destruct (Ascii.ascii_dec a a).
Qed.

Lemma for_each_skipped {S A} (f : A -> M S unit) (l : list A) (s : S) :
  (forall x, x ∈ l -> f x = ret tt) -> for_each l f s = (Ok tt, s).
Proof.
  revert s. induction l as [|x l IH]; intros s Hl; [done|].
  simpl. unfold bind. rewrite (Hl x) by (by left). unfold ret at 1.
  apply IH. intros; apply Hl. by right.
Qed.

(** X18: with print_subtasks set and print_status off, the listing of a
    task whose task_dep names the task itself recurses without bound, the
    name starting with itself: whatever depth of recursion is allowed, the
    listing reaches it, having written the line of the task once per
    level, and does not return (in Python the run ends in RecursionError
    at the interpreter's limit). The entries of task_dep before the task's
    own name are taken not to start with the name. *)
Theorem task_listed_under_itself_exhausts_recursion (print_doc : bool)
    (tasks : gmap string Task) (dependencyManager : Dependency)
    (fs : gmap string Fingerprint) (status_fuel depth : nat) (T : Task)
    (pre post : list string) (out : list string) :
  tasks !! name T = Some T ->
  task_dep T = pre ++ name T :: post ->
  (forall s, s ∈ pre -> startswith s (name T) = false) ->
  _list_print_task true print_doc false tasks dependencyManager fs
    status_fuel depth T out
  = (OutOfFuel, out ++ replicate depth (task_text print_doc T +:+ nl)).
Proof.
  intros HT Hdep Hpre. revert out.
  induction depth as [|depth IH]; intros out.
  - simpl. by rewrite app_nil_r.
  - rewrite list_print_task_unfold.
    change (fst (task_line print_doc false tasks dependencyManager fs
                   status_fuel T []))
      with (Ok (A := string) (task_text print_doc T +:+ nl)).
    cbv iota. rewrite Hdep, for_each_app. unfold bind at 1.
    rewrite for_each_skipped.
    2:{ intros s Hs. by rewrite (Hpre s Hs). }
    cbn [for_each]. unfold bind at 1. rewrite startswith_itself.
    unfold bind, getitem. rewrite HT. unfold ret at 1.
    rewrite IH. cbn [replicate]. by rewrite <- app_assoc.
Qed.

Lemma task_listed_under_itself_exhausts_recursion_witness :
  _list_print_task true false false (tasks_dict self_group)
    (Dependency_open ∅) ∅ 0 3 (mk_task "loop" [] [] ["loop"]) []
  = (OutOfFuel, ["loop" +:+ nl; "loop" +:+ nl; "loop" +:+ nl]).
Proof.
  apply (task_listed_under_itself_exhausts_recursion false
           (tasks_dict self_group) (Dependency_open ∅) ∅ 0 3
           (mk_task "loop" [] [] ["loop"]) [] [] []).
  - vm_compute. reflexivity.
  - reflexivity.
  - intros s Hs. by apply elem_of_nil in Hs.
Defined.

(** ** doit_auto: every way the watch loop goes *)



(** ** doit_clean *)

Lemma for_each_getitem {S A} (d : gmap string A) (f : A -> M S unit)
    (names : list string) (xs : list A) (s : S) :
  Forall2 (fun k x => d !! k = Some x) names xs ->
  for_each names (fun k => let* x := getitem d k in f x) s =
  for_each xs f s.
Proof.
  intros Hres. revert s.
  induction Hres as [|k x names xs Hk _ IH]; intros s; [done|].
  simpl. unfold bind at 1 2, getitem at 1. rewrite Hk. unfold ret at 1.
  unfold bind. destruct (f x s) as [[[]| |] s']; first [done | apply IH].
Qed.

(** X21: doit_clean with names cleans the tasks the names resolve to in
    the task dictionary, in the order of the names and with the dry-run
    flag it was given, a name given twice being cleaned twice; it stops at
    the first clean that raises. *)
Theorem clean_by_names {S : Type} (clean : Task -> bool -> M S unit)
    (task_list : list Task) (dryrun : bool) (n : string)
    (rest : list string) (ts : list Task) (s : S) :
  Forall2 (fun k t => tasks_dict task_list !! k = Some t) (n :: rest) ts ->
  doit_clean clean task_list dryrun (n :: rest) s =
  for_each ts (fun t => clean t dryrun) s.
Proof.
  intros Hres. unfold doit_clean.
  by apply (for_each_getitem _ (fun t => clean t dryrun)).
Qed.

Lemma clean_by_names_witness :
  doit_clean log_clean demo_tasks true ["y"; "x"; "y"] [] =
  (Ok tt, [("y", true); ("x", true); ("y", true)]).
Proof.
  assert (Hres : Forall2
            (fun k t => tasks_dict demo_tasks !! k = Some t)
            ["y"; "x"; "y"]
            [ mk_task "y" [CmdAction "touch y.out"] ["y.in"] [];
              mk_task "x" [CmdAction "touch x.out"] ["x.in"] [];
              mk_task "y" [CmdAction "touch y.out"] ["y.in"] [] ]).
  { repeat constructor; vm_compute; reflexivity. }
  rewrite (clean_by_names log_clean demo_tasks true "y" ["x"; "y"] _ []
             Hres).
  reflexivity.
Defined.

(** X22: a name given to doit_clean that is not a task makes it end in a
    KeyError for that name, not in a command error, after the tasks named
    before it have been cleaned; the names after it are not looked at. *)
Theorem clean_unknown_name (S : Type) (clean : Task -> bool -> M S unit)
    (task_list : list Task) (dryrun : bool) (pre : list string)
    (bad : string) (post : list string) (ts : list Task) (s s' : S) :
  Forall2 (fun k t => tasks_dict task_list !! k = Some t) pre ts ->
  tasks_dict task_list !! bad = None ->
  for_each ts (fun t => clean t dryrun) s = (Ok tt, s') ->
  doit_clean clean task_list dryrun (pre ++ bad :: post) s =
  (Raise (KeyError bad), s').
Proof.
  intros Hres Hbad Hpre.
  assert (Hrun : for_each (pre ++ bad :: post)
                   (fun k => let* t := getitem (tasks_dict task_list) k in
                             clean t dryrun) s
                 = (Raise (KeyError bad), s')).
  { rewrite for_each_app. unfold bind at 1.
    rewrite (for_each_getitem _ (fun t => clean t dryrun) _ _ _ Hres), Hpre.
    simpl. unfold bind, getitem. by rewrite Hbad. }
  rewrite <- Hrun. unfold doit_clean. by destruct pre.
Qed.

Lemma clean_unknown_name_witness :
  doit_clean log_clean demo_tasks false (["x"] ++ "nope" :: ["y"]) [] =
  (Raise (KeyError "nope"), [("x", false)]).
Proof.
  apply (clean_unknown_name _ log_clean demo_tasks false ["x"] "nope" ["y"]
           [mk_task "x" [CmdAction "touch x.out"] ["x.in"] []] []
           [("x", false)]).
  - repeat constructor.
  - vm_compute. reflexivity.
  - reflexivity.
Defined.

(** ** Listing: when the recursion through sub-tasks ends *)

Lemma startswith_length (s p : string) :
  startswith s p = true ->
  String.length p <= String.length s /\
  (String.length p = String.length s -> p = s).
Proof.
  unfold startswith. revert s. induction p as [|a p IH]; intros s Hp.
  - split; [simpl; lia|]. destruct s; [done | simpl; lia].
  - destruct s as [|b s]; [done|]. simpl in Hp.
    destruct (Ascii.ascii_dec a b) as [->|]; [|done].
    destruct (IH s Hp) as [Hle Heq]. simpl. split; [lia|].
    intros Hlen. f_equal. apply Heq. lia.
Qed.

Lemma for_each_finishes {S A} (f : A -> M S unit) (l : list A) (s : S) :
  (forall x s, x ∈ l -> fst (f x s) <> OutOfFuel) ->
  fst (for_each l f s) <> OutOfFuel.
Proof.
  revert s. induction l as [|x l IH]; intros s Hl; [done|].
  simpl. unfold bind. pose proof (Hl x s ltac:(by left)) as Hx.
  destruct (f x s) as [[[]| |] s']; try done.
  apply IH. intros; apply Hl. by right.
Qed.

Lemma list_print_task_finishes (print_subtasks print_doc : bool)
    (tasks : gmap string Task) (dependencyManager : Dependency)
    (fs : gmap string Fingerprint) (status_fuel bound depth : nat)
    (T : Task) (out : list string) :
  (forall k t, tasks !! k = Some t ->
     name t = k /\ (k ∉ task_dep t) /\ String.length k < bound) ->
  name T ∉ task_dep T ->
  bound - String.length (name T) < depth ->
  fst (_list_print_task print_subtasks print_doc false tasks
         dependencyManager fs status_fuel depth T out) <> OutOfFuel.
Proof.
  intros Htasks. revert T out.
  induction depth as [|depth IH]; intros T out HT Hdepth; [lia|].
  cbn [_list_print_task]. unfold bind, task_line, ret, swrite, modify.
  destruct print_subtasks; [|done].
  apply for_each_finishes. intros subt s Hsubt.
  destruct (startswith subt (name T)) eqn:Hp; [|done].
  unfold getitem. destruct (tasks !! subt) as [t|] eqn:Ht; [|done].
  unfold ret. destruct (Htasks _ _ Ht) as (Hname & Hself & Hlen).
  apply IH; rewrite Hname; [done|].
  destruct (startswith_length _ _ Hp) as [Hle Heq].
  assert (String.length (name T) <> String.length subt).
  { intros Hl. apply Heq in Hl. congruence. }
  lia.
Qed.

Lemma name_length_bound (task_list : list Task) :
  exists bound, forall t, t ∈ task_list -> String.length (name t) < bound.
Proof.
  induction task_list as [|u l [b Hb]].
  - exists 0. intros t Ht. by apply elem_of_nil in Ht.
  - exists (S (b `max` String.length (name u))).
    intros t [->|Ht]%elem_of_cons; [lia|]. specialize (Hb t Ht). lia.
Qed.

(** X23: when no task of the task list names itself in its task_dep,
    listing with sub-tasks (and without status) always comes to an end:
    a sub-task is listed under a task only if its name is a strictly
    longer name starting with the task's name, so the nesting is bounded
    by the length of the longest task name. *)
Theorem listing_with_subtasks_ends (status_fuel : nat)
    (fs : gmap string Fingerprint) (dependencyFile : gmap string DepRecord)
    (task_list : list Task) (outstream0 : list string)
    (filter_tasks : list string) (print_doc print_private : bool) :
  (forall t, t ∈ task_list -> name t ∉ task_dep t) ->
  exists depth0, forall depth, depth0 <= depth ->
    fst (doit_list depth status_fuel fs dependencyFile task_list outstream0
           filter_tasks true print_doc false print_private) <> OutOfFuel.
Proof.
  intros Hself. destruct (name_length_bound task_list) as [bound Hbound].
  assert (Htasks : forall k t, tasks_dict task_list !! k = Some t ->
            name t = k /\ (k ∉ task_dep t) /\ String.length k < bound).
  { intros k t Hk. apply tasks_dict_name in Hk as [<- Hin].
    split; [done|]. split; [by apply Hself | by apply Hbound]. }
  exists (S bound). intros depth Hdepth. unfold doit_list. unfold bind at 1.
  destruct (match filter_tasks with
            | [] => ret task_list
            | _ :: _ => map_m (getitem (tasks_dict task_list)) filter_tasks
            end outstream0) as [[pt| |] out1] eqn:Hpt; try done.
  - assert (Hin : forall t, t ∈ pt -> t ∈ task_list).
    { destruct filter_tasks as [|n rest].
      - unfold ret in Hpt. by injection Hpt as <- _.
      - clear -Hpt. revert pt out1 Hpt.
        generalize (n :: rest) as names. clear n rest.
        induction names as [|k names IH]; intros pt out1 Hpt t Ht.
        + unfold map_m, ret in Hpt. injection Hpt as <- _.
          by apply elem_of_nil in Ht.
        + simpl in Hpt. unfold bind, getitem at 1 in Hpt.
          destruct (tasks_dict task_list !! k) as [u|] eqn:Hk;
            [|discriminate].
          unfold ret at 1 in Hpt.
          destruct (map_m (getitem (tasks_dict task_list)) names outstream0)
            as [[ys| |] s'] eqn:Hrest; try discriminate.
          unfold ret in Hpt. injection Hpt as <- _.
          apply elem_of_cons in Ht as [->|Ht].
          * by apply tasks_dict_name in Hk as [_ ?].
          * by apply (IH _ _ eq_refl). }
    unfold bind.
    pose proof (for_each_finishes
      (fun task =>
         if bool_decide (filter_tasks = []) && is_subtask task then ret tt
         else if negb print_private && startswith (name task) "_" then ret tt
         else _list_print_task true print_doc false (tasks_dict task_list)
                (Dependency_open dependencyFile) fs status_fuel depth task)
      pt out1) as Hfe.
    destruct (for_each pt _ out1) as [[[]| |] out2]; try done.
    exfalso. apply Hfe; [|done]. intros task s Htask.
    destruct (bool_decide (filter_tasks = []) && is_subtask task); [done|].
    destruct (negb print_private && startswith (name task) "_"); [done|].
    apply (list_print_task_finishes _ _ _ _ _ _ bound); [done | | lia].
    apply Hself. by apply Hin.
  - exfalso. destruct filter_tasks as [|n rest]; [discriminate|].
    clear -Hpt. revert Hpt. generalize (n :: rest) as names.
    induction names as [|k names IH]; [discriminate|].
    simpl. unfold bind, getitem at 1.
    destruct (tasks_dict task_list !! k); [|discriminate].
    unfold ret at 1.
    destruct (map_m (getitem (tasks_dict task_list)) names outstream0)
      as [[ys| |] s'] eqn:Hrest; try discriminate.
    exact IH.
Qed.

Lemma listing_with_subtasks_ends_witness :
  exists depth0, forall depth, depth0 <= depth ->
    fst (doit_list depth 0 ∅ ∅ demo_listing [] [] true false false false)
    <> OutOfFuel.
Proof.
  apply (listing_with_subtasks_ends 0 ∅ ∅ demo_listing [] [] false false).
  intros t Ht. unfold demo_listing in Ht. rewrite !elem_of_cons in Ht.
  destruct Ht as [->|[->|[->|[->|[]%elem_of_nil]]]]; simpl;
    rewrite ?elem_of_cons; intros H;
    repeat (destruct H as [H|H]; [discriminate|]);
    by apply elem_of_nil in H.
Defined.

(** ** The watch set depends on the files only *)

(** X24: the watcher is the same for two lists of files that hold the
    same files: neither the order of the file names nor their repetition
    (a file two tasks depend on) changes the watch set or the watched
    directories. *)
Theorem watcher_of_same_files (abspath dirname : string -> string)
    (files1 files2 : list string) :
  (forall f, f ∈ files1 <-> f ∈ files2) ->
  FileModifyWatcher_init abspath dirname files1
  = FileModifyWatcher_init abspath dirname files2.
Proof.
  intros Hsame.
  assert (Hfl : (list_to_set (abspath <$> files1) : gset string)
                = list_to_set (abspath <$> files2)).
  { apply set_eq. intros p. rewrite !elem_of_list_to_set, !list_elem_of_fmap.
    split; intros (f & -> & Hf); exists f; (split; [done|]); by apply Hsame. }
  unfold FileModifyWatcher_init. by rewrite Hfl.
Qed.

Lemma watcher_of_same_files_witness :
  FileModifyWatcher_init demo_abspath demo_dirname ["x.in"; "y.in"; "x.in"]
  = FileModifyWatcher_init demo_abspath demo_dirname ["y.in"; "x.in"].
Proof.
  apply watcher_of_same_files. intros f. rewrite !elem_of_cons.
  rewrite elem_of_nil. tauto.
Defined.
